(** * TransportBrowserTab: the browser-tab transport of keeweb-connect

    A shallow embedding of
    [src/background/transport/transport-browser-tab.ts] and the
    verification of its connection life cycle: the ping/pong handshake
    with its retry budget, [connect], [disconnect], [request] and the
    port listeners.

    The class lives in a single-threaded event loop.  Its host (the
    browser) is modelled by a read-only oracle [Host] that answers the
    queries of the code, and by a timestamped log of every host call the
    code makes.  Promises are modelled by the way they settle. *)

From Stdlib Require Import ZArith NArith List String Bool Lia.
From Equations Require Import Equations.
Import ListNotations.

Local Open Scope string_scope.
Local Open Scope list_scope.
Local Open Scope Z_scope.

(** ** Data *)

(** The JavaScript values a message field may hold. *)
Inductive JsValue : Type :=
| JsUndefined
| JsNull
| JsBoolean (b : bool)
| JsNumber (z : Z)
| JsString (s : string).

(** [v === s] for a string [s]: strict equality never coerces. *)
Definition strict_eq_string (v : JsValue) (s : string) : bool :=
  match v with
  | JsString t => String.eqb t s
  | _ => false
  end.

(** [chrome.tabs.Tab], with the fields the transport can tell apart. *)
Record Tab : Type := { tab_id : Z; tab_url : string }.

(** [chrome.runtime.Port]: the name it was opened under, the tab it leads
    to, and a serial number standing for the identity of the object. *)
Record Port : Type := { port_name : string; port_tab : Z; port_serial : nat }.

(** The messages carried by a port; only [action] and [data] are ever
    looked at by the transport. *)
Record Message : Type := { action : JsValue; data : JsValue }.

(** The text of an [Error]: a lookup of [chrome.i18n.getMessage] or a
    literal. *)
Inductive ErrorText : Type :=
| I18n (key : string) (substitution : option string)
| Literal (text : string).

(** What [this.emit] hands to the owner. *)
Inductive Emitted : Type :=
| Err (e : ErrorText)
| Msg (m : Message).

Inductive PortEvent : Type := OnDisconnect | OnMessage.

(** The four closures the class registers on ports. *)
Inductive Listener : Type :=
| tabDisconnectedListener
| tabMessageListener
| portDisconnectedListener
| portMessageListener.

(** The two timers of a handshake attempt, told apart by its port. *)
Inductive Timer : Type :=
| ResponseTimeout (p : Port)
| RetryTimer (p : Port).

(** Every call the transport makes to its host or to its owner. *)
Inductive HostCall : Type :=
| PermissionsContains (origin : string)
| GetActiveTab
| TabsQuery (url : string)
| TabsCreate (url : string) (active : bool)
| ActivateTab (t : Tab)
| TabsConnect (tabId : Z) (name : string)
| SetTimeout (t : Timer) (ms : N)
| ClearTimeout (t : Timer)
| AddListener (p : Port) (ev : PortEvent) (l : Listener)
| RemoveListener (p : Port) (ev : PortEvent) (l : Listener)
| PostMessage (p : Port) (m : Message)
| PortDisconnect (p : Port)
| Emit (e : Emitted).

(** What the far end of a freshly opened port does first, and how many
    milliseconds after the port was opened. *)
Inductive PortReaction : Type :=
| Silent
| Disconnects (after : N)
| Replies (after : N) (m : Message).

(** The host oracle: everything the browser decides. *)
Record Host : Type := {
  permission_granted : string -> bool;
  active_tab : option Tab;
  tabs_matching : string -> list Tab;
  created_tab : string -> option Tab;
  randomBase64 : nat -> N -> string;
  reaction : Port -> PortReaction
}.

(** The fields of the class, the clock of the event loop, the log of host
    calls, and the counters of random draws and opened ports. *)
Record State : Type := {
  _keeWebUrl : string;
  _tab : option Tab;
  _port : option Port;
  now : N;
  trace : list (N * HostCall);
  drawn : nat;
  opened : nat
}.

Definition _maxTabConnectionRetries : Z := 10.
Definition _tabConnectionRetryMillis : N := 500.
Definition _tabConnectionTimeoutMillis : N := 500.

(** ** Promises and the monad of the code *)

Inductive JsError : Type := TypeError.

(** How a call ends: it returns (an awaited promise is fulfilled), it
    throws (the promise is rejected), or its promise never settles. *)
Inductive Result (A : Type) : Type :=
| Fulfilled (a : A)
| Rejected (e : JsError)
| Pending.
Arguments Fulfilled {A} a.
Arguments Rejected {A} e.
Arguments Pending {A}.

Definition M (A : Type) : Type := State -> Result A * State.

Definition ret {A} (a : A) : M A := fun s => (Fulfilled a, s).

Definition bind {A B} (m : M A) (k : A -> M B) : M B :=
  fun s =>
    match m s with
    | (Fulfilled a, s') => k a s'
    | (Rejected e, s') => (Rejected e, s')
    | (Pending, s') => (Pending, s')
    end.

Declare Scope transport_scope.
Delimit Scope transport_scope with transport.
Notation "x <- c ;; k" := (bind c (fun x => k))
  (at level 61, c at next level, right associativity) : transport_scope.
Notation "c ;; k" := (bind c (fun _ => k))
  (at level 61, right associativity) : transport_scope.
Local Open Scope transport_scope.

Definition throw {A} (e : JsError) : M A := fun s => (Rejected e, s).

Definition get {A} (f : State -> A) : M A := fun s => (Fulfilled (f s), s).

(** ** State updates *)

Definition log_call (c : HostCall) (s : State) : State :=
  {| _keeWebUrl := _keeWebUrl s; _tab := _tab s; _port := _port s;
     now := now s; trace := trace s ++ [(now s, c)];
     drawn := drawn s; opened := opened s |}.

Definition elapse (ms : N) (s : State) : State :=
  {| _keeWebUrl := _keeWebUrl s; _tab := _tab s; _port := _port s;
     now := (now s + ms)%N; trace := trace s;
     drawn := drawn s; opened := opened s |}.

Definition assign_tab (t : option Tab) (s : State) : State :=
  {| _keeWebUrl := _keeWebUrl s; _tab := t; _port := _port s;
     now := now s; trace := trace s;
     drawn := drawn s; opened := opened s |}.

Definition assign_port (p : option Port) (s : State) : State :=
  {| _keeWebUrl := _keeWebUrl s; _tab := _tab s; _port := p;
     now := now s; trace := trace s;
     drawn := drawn s; opened := opened s |}.

Definition count_draw (s : State) : State :=
  {| _keeWebUrl := _keeWebUrl s; _tab := _tab s; _port := _port s;
     now := now s; trace := trace s;
     drawn := S (drawn s); opened := opened s |}.

Definition count_port (s : State) : State :=
  {| _keeWebUrl := _keeWebUrl s; _tab := _tab s; _port := _port s;
     now := now s; trace := trace s;
     drawn := drawn s; opened := S (opened s) |}.

Definition call (c : HostCall) : M unit := fun s => (Fulfilled tt, log_call c s).

Definition set_tab (t : option Tab) : M unit :=
  fun s => (Fulfilled tt, assign_tab t s).

Definition set_port (p : option Port) : M unit :=
  fun s => (Fulfilled tt, assign_port p s).

(** [new TransportBrowserTab(keeWebUrl)] at time 0. *)
Definition new_TransportBrowserTab (keeWebUrl : string) : State :=
  {| _keeWebUrl := keeWebUrl; _tab := None; _port := None;
     now := 0%N; trace := []; drawn := O; opened := O |}.

(** ** Collaborators *)

(** Modelled from the spec: [TransportBase.emit] is not under src/; it is
    the error-emission and message channel to the owner, and returns. *)
Definition emit (e : Emitted) : M unit := call (Emit e).

(** Modelled from the spec: [getActiveTab] of background/utils is not
    under src/; it yields the active tab of the browser, if any. *)
Definition getActiveTab (h : Host) : M (option Tab) :=
  call GetActiveTab ;; ret (active_tab h).

(** Modelled from the spec: [activateTab] of background/utils is not
    under src/; it gives the focus to the tab and returns nothing. *)
Definition activateTab (t : Tab) : M unit := call (ActivateTab t).

(** Time passing in the event loop until the next callback runs. *)
Definition wait (ms : N) : M unit := fun s => (Fulfilled tt, elapse ms s).

(** [chrome.tabs.connect(tabId, {name})]: a new port object. *)
Definition tabs_connect (tabId : Z) (name : string) : M Port :=
  fun s =>
    (Fulfilled {| port_name := name; port_tab := tabId; port_serial := opened s |},
     count_port (log_call (TabsConnect tabId name) s)).

(** [p.then(resolve)] inside a promise executor: the outer promise is
    resolved when [p] is fulfilled, and is left pending otherwise. *)
Definition then_resolve {A} (p : M A) : M A :=
  fun s =>
    match p s with
    | (Fulfilled a, s') => (Fulfilled a, s')
    | (Rejected _, s') => (Pending, s')
    | (Pending, s') => (Pending, s')
    end.

(** ** The private methods *)

Definition checkPermissions (h : Host) : M bool :=
  url <- get _keeWebUrl ;;
  call (PermissionsContains url) ;;
  ret (permission_granted h url).

Definition findOrCreateTab (h : Host) : M (option Tab) :=
  url <- get _keeWebUrl ;;
  call (TabsQuery url) ;;
  match tabs_matching h url with
  | tab :: _ => ret (Some tab)
  | [] => call (TabsCreate url true) ;; ret (created_tab h url)
  end.

Definition getRandomPortName (h : Host) : M string :=
  fun s =>
    (Fulfilled ("keeweb-connect-" ++ randomBase64 h (drawn s) 32)%string,
     count_draw s).

Definition portDisconnected : M unit :=
  port <- get _port ;;
  match port with
  | Some _ =>
      set_port None ;;
      emit (Err (I18n "errorKeeWebDisconnected" None))
  | None => ret tt
  end ;;
  set_tab None.

Definition portMessage (msg : Message) : M unit := emit (Msg msg).

(** *** connectToTab *)

(** The closure [cleanup] of one attempt. *)
Definition cleanup (port : Port) : M unit :=
  call (ClearTimeout (ResponseTimeout port)) ;;
  call (RemoveListener port OnDisconnect tabDisconnectedListener) ;;
  call (RemoveListener port OnMessage tabMessageListener).

(** The synchronous part of the executor past its guard: draw the name,
    open the port, arm the timeout and the listeners, send the ping. *)
Definition open_attempt (h : Host) : M (string * Port) :=
  name <- getRandomPortName h ;;
  tab <- get _tab ;;
  match tab with
  | None => throw TypeError
  | Some t =>
      port <- tabs_connect (tab_id t) name ;;
      call (SetTimeout (ResponseTimeout port) _tabConnectionTimeoutMillis) ;;
      call (AddListener port OnDisconnect tabDisconnectedListener) ;;
      call (AddListener port OnMessage tabMessageListener) ;;
      call (PostMessage port
              {| action := JsString "ping"; data := JsString (port_name port) |}) ;;
      ret (name, port)
  end.

(** The callback of [responseTimeout], up to its recursive call. *)
Definition responseTimeout (port : Port) : M unit :=
  cleanup port ;;
  call (PortDisconnect port).

(** The closure [tabDisconnected], up to the firing of its retry timer. *)
Definition tabDisconnected (port : Port) : M unit :=
  cleanup port ;;
  call (SetTimeout (RetryTimer port) _tabConnectionRetryMillis).

(** The closure [tabMessage]; its value is what it resolves with. *)
Definition tabMessage (name : string) (port : Port) (msg : Message)
  : M (option Port) :=
  cleanup port ;;
  if strict_eq_string (data msg) name then ret (Some port)
  else call (PortDisconnect port) ;; ret None.

(** Which of the three armed callbacks of an attempt runs first. *)
Inductive Fired : Type :=
| TimeoutFired
| DisconnectFired (after : N)
| MessageFired (after : N) (m : Message).

(** The race of an attempt: the far end wins when it acts before
    [_tabConnectionTimeoutMillis] have passed. *)
Definition first_event (r : PortReaction) : Fired :=
  match r with
  | Silent => TimeoutFired
  | Disconnects after =>
      if (after <? _tabConnectionTimeoutMillis)%N
      then DisconnectFired after else TimeoutFired
  | Replies after m =>
      if (after <? _tabConnectionTimeoutMillis)%N
      then MessageFired after m else TimeoutFired
  end.

Equations? connectToTab (h : Host) (retriesLeft : Z) : M (option Port)
  by wf (Z.to_nat retriesLeft) lt :=
connectToTab h retriesLeft with Z_le_gt_dec retriesLeft 0 := {
  | left _ => ret None
  | right _ =>
      attempt <- open_attempt h ;;
      match first_event (reaction h (snd attempt)) with
      | TimeoutFired =>
          wait _tabConnectionTimeoutMillis ;;
          responseTimeout (snd attempt) ;;
          then_resolve (connectToTab h (retriesLeft - 1))
      | DisconnectFired after =>
          wait after ;;
          tabDisconnected (snd attempt) ;;
          wait _tabConnectionRetryMillis ;;
          then_resolve (connectToTab h (retriesLeft - 1))
      | MessageFired after msg =>
          wait after ;;
          tabMessage (fst attempt) (snd attempt) msg
      end }.
Proof. all: lia. Qed.

(** ** The public methods *)

(** [if (activeTab && this._tab.id !== activeTab.id) await activateTab(activeTab)] *)
Definition restore_focus (activeTab : option Tab) : M unit :=
  match activeTab with
  | None => ret tt
  | Some active =>
      tab <- get _tab ;;
      match tab with
      | None => throw TypeError
      | Some t =>
          if negb (tab_id t =? tab_id active) then activateTab active
          else ret tt
      end
  end.

Definition connect (h : Host) : M unit :=
  hasPermissions <- checkPermissions h ;;
  if negb hasPermissions then
    url <- get _keeWebUrl ;;
    emit (Err (I18n "errorBrowserTabNoPermissions" (Some url)))
  else
    activeTab <- getActiveTab h ;;
    tab <- findOrCreateTab h ;;
    set_tab tab ;;
    match tab with
    | None => emit (Err (I18n "errorBrowserCannotCreateTab" None))
    | Some _ =>
        port <- connectToTab h _maxTabConnectionRetries ;;
        set_port port ;;
        match port with
        | None =>
            restore_focus activeTab ;;
            emit (Err (I18n "errorBrowserCannotConnectToTab" None))
        | Some p =>
            call (AddListener p OnDisconnect portDisconnectedListener) ;;
            call (AddListener p OnMessage portMessageListener) ;;
            restore_focus activeTab
        end
    end.

Definition disconnect : M unit :=
  set_tab None ;;
  port <- get _port ;;
  match port with
  | Some p => call (PortDisconnect p)
  | None => ret tt
  end ;;
  port <- get _port ;;
  match port with
  | Some _ =>
      set_port None ;;
      emit (Err (I18n "errorKeeWebDisconnected" None))
  | None => ret tt
  end.

Definition request (message : Message) : M unit :=
  port <- get _port ;;
  match port with
  | Some p => call (PostMessage p message)
  | None => emit (Err (Literal "Port not connected"))
  end.

(** [k] deliveries in a row of an event to the listener [m]. *)
Fixpoint deliver (k : nat) (m : M unit) : M unit :=
  match k with
  | O => ret tt
  | S k' => m ;; deliver k' m
  end.

(** ** Reading the log *)

(** The calls made on the way from [s] to [s']. *)
Definition calls_since (s s' : State) : list (N * HostCall) :=
  skipn (List.length (trace s)) (trace s').

Definition is_connect (c : N * HostCall) : bool :=
  match snd c with TabsConnect _ _ => true | _ => false end.

Definition ports_opened (l : list (N * HostCall)) : nat :=
  List.length (filter is_connect l).

Fixpoint events_emitted (l : list (N * HostCall)) : list Emitted :=
  match l with
  | [] => []
  | (_, Emit e) :: l' => e :: events_emitted l'
  | _ :: l' => events_emitted l'
  end.

Fixpoint tabs_activated (l : list (N * HostCall)) : list Tab :=
  match l with
  | [] => []
  | (_, ActivateTab t) :: l' => t :: tabs_activated l'
  | _ :: l' => tabs_activated l'
  end.

(** The calls of a list, all made at time [t]. *)
Definition stamp (t : N) (l : list HostCall) : list (N * HostCall) :=
  map (pair t) l.

(** The name and the port of the attempt that starts in state [s]. *)
Definition attempt_name (h : Host) (s : State) : string :=
  ("keeweb-connect-" ++ randomBase64 h (drawn s) 32)%string.

Definition attempt_port (h : Host) (s : State) (t : Tab) : Port :=
  {| port_name := attempt_name h s; port_tab := tab_id t;
     port_serial := opened s |}.

Definition ping (name : string) : Message :=
  {| action := JsString "ping"; data := JsString name |}.

(** What an attempt logs when it opens its port. *)
Definition opening_calls (p : Port) : list HostCall :=
  [ TabsConnect (port_tab p) (port_name p);
    SetTimeout (ResponseTimeout p) _tabConnectionTimeoutMillis;
    AddListener p OnDisconnect tabDisconnectedListener;
    AddListener p OnMessage tabMessageListener;
    PostMessage p (ping (port_name p)) ].

(** What [cleanup] logs. *)
Definition cleanup_calls (p : Port) : list HostCall :=
  [ ClearTimeout (ResponseTimeout p);
    RemoveListener p OnDisconnect tabDisconnectedListener;
    RemoveListener p OnMessage tabMessageListener ].

(** The state in which one attempt started from [s] stands at time [t]
    after the calls [l]: one name drawn, one port opened, fields kept. *)
Definition attempt_state (s : State) (t : N) (l : list (N * HostCall)) : State :=
  {| _keeWebUrl := _keeWebUrl s; _tab := _tab s; _port := _port s;
     now := t; trace := trace s ++ l;
     drawn := S (drawn s); opened := S (opened s) |}.

(** The states in which an attempt that started in [s] on the port [p]
    ends: after a timeout, after the backoff that follows a disconnection,
    after the expected pong, after any other message. *)
Definition timeout_state (s : State) (p : Port) : State :=
  attempt_state s (now s + _tabConnectionTimeoutMillis)
    (stamp (now s) (opening_calls p) ++
     stamp (now s + _tabConnectionTimeoutMillis)
       (cleanup_calls p ++ [PortDisconnect p])).

Definition backoff_state (s : State) (p : Port) (after : N) : State :=
  attempt_state s (now s + after + _tabConnectionRetryMillis)
    (stamp (now s) (opening_calls p) ++
     stamp (now s + after)
       (cleanup_calls p ++
        [SetTimeout (RetryTimer p) _tabConnectionRetryMillis])).

Definition accepted_state (s : State) (p : Port) (after : N) : State :=
  attempt_state s (now s + after)
    (stamp (now s) (opening_calls p) ++
     stamp (now s + after) (cleanup_calls p)).

Definition repudiated_state (s : State) (p : Port) (after : N) : State :=
  attempt_state s (now s + after)
    (stamp (now s) (opening_calls p) ++
     stamp (now s + after) (cleanup_calls p ++ [PortDisconnect p])).

(** [handshake_log n s s' l]: the run from [s] to [s'] kept the fields of
    the class, logged exactly [l], opened at most [n] ports in it, and
    neither emitted an event nor moved the focus. *)
Definition handshake_log (n : Z) (s s' : State) (l : list (N * HostCall)) : Prop :=
  trace s' = trace s ++ l /\
  _keeWebUrl s' = _keeWebUrl s /\ _tab s' = _tab s /\ _port s' = _port s /\
  (ports_opened l <= Z.to_nat n)%nat /\
  events_emitted l = [] /\ tabs_activated l = [].

(** The tab that [findOrCreateTab] yields. *)
Definition found_tab (h : Host) (url : string) : option Tab :=
  match tabs_matching h url with
  | tab :: _ => Some tab
  | [] => created_tab h url
  end.

(** The calls of [connect] up to the end of [findOrCreateTab]. *)
Definition acquisition_calls (h : Host) (url : string) : list HostCall :=
  [PermissionsContains url; GetActiveTab; TabsQuery url] ++
  match tabs_matching h url with
  | [] => [TabsCreate url true]
  | _ :: _ => []
  end.

(** The calls of [restore_focus] when the tab [t] is tracked. *)
Definition focus_calls (h : Host) (t : Tab) : list HostCall :=
  match active_tab h with
  | Some active => if tab_id t =? tab_id active then [] else [ActivateTab active]
  | None => []
  end.

(** The calls of [connect] after its handshake resolved with [r]. *)
Definition closing_calls (h : Host) (t : Tab) (r : option Port) : list HostCall :=
  match r with
  | None => focus_calls h t ++ [Emit (Err (I18n "errorBrowserCannotConnectToTab" None))]
  | Some p =>
      [AddListener p OnDisconnect portDisconnectedListener;
       AddListener p OnMessage portMessageListener] ++ focus_calls h t
  end.

(** [s] after the calls [l], all made now. *)
Definition with_calls (l : list HostCall) (s : State) : State :=
  {| _keeWebUrl := _keeWebUrl s; _tab := _tab s; _port := _port s;
     now := now s; trace := trace s ++ stamp (now s) l;
     drawn := drawn s; opened := opened s |}.

(** [connect] from the handshake on, for the active tab [activeTab]. *)
Definition complete_connect (h : Host) (activeTab : option Tab) : M unit :=
  port <- connectToTab h _maxTabConnectionRetries ;;
  set_port port ;;
  match port with
  | None =>
      restore_focus activeTab ;;
      emit (Err (I18n "errorBrowserCannotConnectToTab" None))
  | Some p =>
      call (AddListener p OnDisconnect portDisconnectedListener) ;;
      call (AddListener p OnMessage portMessageListener) ;;
      restore_focus activeTab
  end.

(** ** Sample hosts *)

Definition keeweb : string := "https://app.keeweb.info/".
Definition keeweb_tab : Tab := {| tab_id := 7; tab_url := keeweb |}.
Definition other_tab : Tab := {| tab_id := 3; tab_url := "https://example.org/" |}.

Definition sample_random (k : nat) (bytes : N) : string :=
  match k with
  | O => "AAAA"
  | 1%nat => "BBBB"
  | 2%nat => "CCCC"
  | _ => "DDDD"
  end.

Definition pong (token : string) : Message :=
  {| action := JsString "ping"; data := JsString token |}.

(** A tab that answers every ping with the name of the port. *)
Definition echo_host : Host :=
  {| permission_granted := fun _ => true;
     active_tab := Some other_tab;
     tabs_matching := fun _ => [keeweb_tab];
     created_tab := fun _ => None;
     randomBase64 := sample_random;
     reaction := fun p => Replies 20 (pong (port_name p)) |}.

(** A tab that never answers. *)
Definition silent_host : Host :=
  {| permission_granted := fun _ => true;
     active_tab := Some other_tab;
     tabs_matching := fun _ => [keeweb_tab];
     created_tab := fun _ => None;
     randomBase64 := sample_random;
     reaction := fun _ => Silent |}.

(** A tab whose first port delivers the answer to an earlier ping, and
    whose later ports would answer properly. *)
Definition stale_host : Host :=
  {| permission_granted := fun _ => true;
     active_tab := Some other_tab;
     tabs_matching := fun _ => [keeweb_tab];
     created_tab := fun _ => None;
     randomBase64 := sample_random;
     reaction := fun p =>
       match port_serial p with
       | O => Replies 20 (pong "keeweb-connect-ZZZZ")
       | _ => Replies 20 (pong (port_name p))
       end |}.

(** A browser that withholds the permission. *)
Definition denying_host : Host :=
  {| permission_granted := fun _ => false;
     active_tab := Some other_tab;
     tabs_matching := fun _ => [keeweb_tab];
     created_tab := fun _ => None;
     randomBase64 := sample_random;
     reaction := fun p => Replies 20 (pong (port_name p)) |}.

(** A browser in which the user already looks at the KeeWeb tab. *)
Definition focused_host : Host :=
  {| permission_granted := fun _ => true;
     active_tab := Some keeweb_tab;
     tabs_matching := fun _ => [keeweb_tab];
     created_tab := fun _ => None;
     randomBase64 := sample_random;
     reaction := fun p => Replies 20 (pong (port_name p)) |}.

(** A connector that has acquired [keeweb_tab] and has no port. *)
Definition tab_acquired : State :=
  assign_tab (Some keeweb_tab) (new_TransportBrowserTab keeweb).


(** ** Counting in the log *)

(** The number of calls of the kind [f] in a log. *)
Definition count_calls (f : HostCall -> bool) (l : list (N * HostCall)) : nat :=
  List.length (filter (fun c => f (snd c)) l).

Definition is_response_timer (c : HostCall) : bool :=
  match c with SetTimeout (ResponseTimeout _) _ => true | _ => false end.

Definition is_retry_timer (c : HostCall) : bool :=
  match c with SetTimeout (RetryTimer _) _ => true | _ => false end.

Definition is_clear_timer (c : HostCall) : bool :=
  match c with ClearTimeout _ => true | _ => false end.

Definition is_add_listener (c : HostCall) : bool :=
  match c with AddListener _ _ _ => true | _ => false end.

Definition is_remove_listener (c : HostCall) : bool :=
  match c with RemoveListener _ _ _ => true | _ => false end.

Definition is_post (c : HostCall) : bool :=
  match c with PostMessage _ _ => true | _ => false end.

Definition is_port_disconnect (c : HostCall) : bool :=
  match c with PortDisconnect _ => true | _ => false end.

Definition is_tabs_create (c : HostCall) : bool :=
  match c with TabsCreate _ _ => true | _ => false end.

Definition is_tabs_query (c : HostCall) : bool :=
  match c with TabsQuery _ => true | _ => false end.

(** The tab and the name of every port opened in a log, in order. *)
Fixpoint connections (l : list (N * HostCall)) : list (Z * string) :=
  match l with
  | [] => []
  | (_, TabsConnect tabId name) :: l' => (tabId, name) :: connections l'
  | _ :: l' => connections l'
  end.

(** The name of the [k]-th draw of the random source. *)
Definition drawn_name (h : Host) (k : nat) : string :=
  ("keeweb-connect-" ++ randomBase64 h k 32)%string.

(** One if a port came out of the handshake, zero otherwise. *)
Definition ports_kept (r : option Port) : nat :=
  match r with Some _ => 1%nat | None => 0%nat end.

(** [port implies tab]: a tracked port comes with a tracked tab. *)
Definition port_has_tab (s : State) : Prop :=
  _port s <> None -> _tab s <> None.

(** A browser without a KeeWeb tab that cannot create one. *)
Definition tabless_host : Host :=
  {| permission_granted := fun _ => true;
     active_tab := Some other_tab;
     tabs_matching := fun _ => [];
     created_tab := fun _ => None;
     randomBase64 := sample_random;
     reaction := fun p => Replies 20 (pong (port_name p)) |}.

(** A tab whose page is not listening yet when the first port is opened,
    and answers on every later port. *)
Definition late_host : Host :=
  {| permission_granted := fun _ => true;
     active_tab := Some other_tab;
     tabs_matching := fun _ => [keeweb_tab];
     created_tab := fun _ => None;
     randomBase64 := sample_random;
     reaction := fun p =>
       match port_serial p with
       | O => Silent
       | _ => Replies 20 (pong (port_name p))
       end |}.

(** A connector that tracks [keeweb_tab] and a port to it. *)
Definition connected : State :=
  assign_port (Some {| port_name := "keeweb-connect-OLD"; port_tab := 7;
                       port_serial := 0 |})
    (count_port tab_acquired).

(** The calls of one attempt that started in [s] on the port [p], by the
    way it ends. *)
Definition timeout_calls (s : State) (p : Port) : list (N * HostCall) :=
  stamp (now s) (opening_calls p) ++
  stamp (now s + _tabConnectionTimeoutMillis)
    (cleanup_calls p ++ [PortDisconnect p]).

Definition backoff_calls (s : State) (p : Port) (after : N) : list (N * HostCall) :=
  stamp (now s) (opening_calls p) ++
  stamp (now s + after)
    (cleanup_calls p ++ [SetTimeout (RetryTimer p) _tabConnectionRetryMillis]).

Definition accepted_calls (s : State) (p : Port) (after : N) : list (N * HostCall) :=
  stamp (now s) (opening_calls p) ++ stamp (now s + after) (cleanup_calls p).

Definition repudiated_calls (s : State) (p : Port) (after : N) : list (N * HostCall) :=
  stamp (now s) (opening_calls p) ++
  stamp (now s + after) (cleanup_calls p ++ [PortDisconnect p]).

(** A random source that never repeats itself. *)
Fixpoint unary (k : nat) : string :=
  match k with
  | O => EmptyString
  | S k' => ("A" ++ unary k')%string
  end.

(** A silent tab in a browser with that random source. *)
Definition fresh_host : Host :=
  {| permission_granted := fun _ => true;
     active_tab := Some other_tab;
     tabs_matching := fun _ => [keeweb_tab];
     created_tab := fun _ => None;
     randomBase64 := fun k _ => unary k;
     reaction := fun _ => Silent |}.

(** The message listener run on each message of a list, in order. *)
Fixpoint receive_all (msgs : list Message) : M unit :=
  match msgs with
  | [] => ret tt
  | m :: rest => portMessage m ;; receive_all rest
  end.

(** * Properties *)

(** ** The monad on explicit states *)

Lemma log_call_attempt_state s t l c :
  log_call c (attempt_state s t l) = attempt_state s t (l ++ [(t, c)]).
Proof.
  unfold log_call, attempt_state; cbn. now rewrite <- app_assoc.
Qed.

Lemma elapse_attempt_state s t l ms :
  elapse ms (attempt_state s t l) = attempt_state s (t + ms) l.
Proof. reflexivity. Qed.

Lemma call_attempt_state c s t l :
  call c (attempt_state s t l) =
  (Fulfilled tt, attempt_state s t (l ++ [(t, c)])).
Proof. unfold call. now rewrite log_call_attempt_state. Qed.

Lemma cleanup_attempt_state p s t l :
  cleanup p (attempt_state s t l) =
  (Fulfilled tt, attempt_state s t (l ++ stamp t (cleanup_calls p))).
Proof.
  unfold cleanup, bind. rewrite !call_attempt_state.
  now rewrite <- !app_assoc.
Qed.

Lemma responseTimeout_attempt_state p s t l :
  responseTimeout p (attempt_state s t l) =
  (Fulfilled tt,
   attempt_state s t (l ++ stamp t (cleanup_calls p ++ [PortDisconnect p]))).
Proof.
  unfold responseTimeout, bind.
  rewrite cleanup_attempt_state, call_attempt_state.
  now rewrite <- !app_assoc.
Qed.

Lemma tabDisconnected_attempt_state p s t l :
  tabDisconnected p (attempt_state s t l) =
  (Fulfilled tt,
   attempt_state s t
     (l ++ stamp t (cleanup_calls p ++
                    [SetTimeout (RetryTimer p) _tabConnectionRetryMillis]))).
Proof.
  unfold tabDisconnected, bind.
  rewrite cleanup_attempt_state, call_attempt_state.
  now rewrite <- !app_assoc.
Qed.

Lemma tabMessage_attempt_state name p msg s t l :
  tabMessage name p msg (attempt_state s t l) =
  if strict_eq_string (data msg) name
  then (Fulfilled (Some p), attempt_state s t (l ++ stamp t (cleanup_calls p)))
  else (Fulfilled None,
        attempt_state s t (l ++ stamp t (cleanup_calls p ++ [PortDisconnect p]))).
Proof.
  unfold tabMessage, bind. rewrite cleanup_attempt_state.
  destruct (strict_eq_string (data msg) name); [reflexivity|].
  unfold bind. rewrite call_attempt_state. unfold ret.
  now rewrite <- !app_assoc.
Qed.

Lemma open_attempt_some h s t :
  _tab s = Some t ->
  open_attempt h s =
  (Fulfilled (attempt_name h s, attempt_port h s t),
   attempt_state s (now s) (stamp (now s) (opening_calls (attempt_port h s t)))).
Proof.
  intros Ht. unfold open_attempt, bind, getRandomPortName, get.
  cbn [_tab count_draw]. rewrite Ht.
  unfold tabs_connect, bind, call, ret, attempt_state, attempt_port,
    attempt_name, stamp, opening_calls, ping, count_port, log_call, count_draw.
  cbn -[String.append]. now rewrite <- !app_assoc.
Qed.

Lemma open_attempt_none h s :
  _tab s = None -> open_attempt h s = (Rejected TypeError, count_draw s).
Proof.
  intros Ht. unfold open_attempt, bind, getRandomPortName, get.
  cbn [_tab count_draw]. now rewrite Ht.
Qed.

(** ** Unfolding connectToTab *)

Lemma connectToTab_exhausted h n : n <= 0 -> connectToTab h n = ret None.
Proof.
  intros Hn. simp connectToTab.
  destruct (Z_le_gt_dec n 0) as [Hle|Hgt]; [reflexivity|lia].
Qed.

Lemma connectToTab_attempt h n :
  n > 0 ->
  connectToTab h n =
  (attempt <- open_attempt h ;;
   match first_event (reaction h (snd attempt)) with
   | TimeoutFired =>
       wait _tabConnectionTimeoutMillis ;;
       responseTimeout (snd attempt) ;;
       then_resolve (connectToTab h (n - 1))
   | DisconnectFired after =>
       wait after ;;
       tabDisconnected (snd attempt) ;;
       wait _tabConnectionRetryMillis ;;
       then_resolve (connectToTab h (n - 1))
   | MessageFired after msg =>
       wait after ;;
       tabMessage (fst attempt) (snd attempt) msg
   end).
Proof.
  intros Hn. rewrite (connectToTab_equation_1 h n).
  destruct (Z_le_gt_dec n 0) as [Hle|Hgt]; [lia|reflexivity].
Qed.

Lemma connectToTab_no_tab h n s :
  n > 0 -> _tab s = None ->
  connectToTab h n s = (Rejected TypeError, count_draw s).
Proof.
  intros Hn Ht. rewrite connectToTab_attempt by assumption.
  unfold bind at 1. now rewrite open_attempt_none.
Qed.

Lemma connectToTab_timeout h n s t :
  n > 0 -> _tab s = Some t ->
  first_event (reaction h (attempt_port h s t)) = TimeoutFired ->
  connectToTab h n s =
  then_resolve (connectToTab h (n - 1)) (timeout_state s (attempt_port h s t)).
Proof.
  intros Hn Ht Hev. rewrite connectToTab_attempt by assumption.
  unfold bind at 1. rewrite (open_attempt_some h s t Ht). cbn [fst snd].
  rewrite Hev. unfold bind, wait.
  rewrite elapse_attempt_state, responseTimeout_attempt_state.
  reflexivity.
Qed.

Lemma connectToTab_disconnect h n s t after :
  n > 0 -> _tab s = Some t ->
  first_event (reaction h (attempt_port h s t)) = DisconnectFired after ->
  connectToTab h n s =
  then_resolve (connectToTab h (n - 1))
    (backoff_state s (attempt_port h s t) after).
Proof.
  intros Hn Ht Hev. rewrite connectToTab_attempt by assumption.
  unfold bind at 1. rewrite (open_attempt_some h s t Ht). cbn [fst snd].
  rewrite Hev. unfold bind, wait.
  rewrite elapse_attempt_state, tabDisconnected_attempt_state.
  reflexivity.
Qed.

Lemma connectToTab_message h n s t after msg :
  n > 0 -> _tab s = Some t ->
  first_event (reaction h (attempt_port h s t)) = MessageFired after msg ->
  connectToTab h n s =
  if strict_eq_string (data msg) (attempt_name h s)
  then (Fulfilled (Some (attempt_port h s t)),
        accepted_state s (attempt_port h s t) after)
  else (Fulfilled None, repudiated_state s (attempt_port h s t) after).
Proof.
  intros Hn Ht Hev. rewrite connectToTab_attempt by assumption.
  unfold bind at 1. rewrite (open_attempt_some h s t Ht). cbn [fst snd].
  rewrite Hev. unfold bind, wait.
  rewrite elapse_attempt_state, tabMessage_attempt_state.
  reflexivity.
Qed.

(** ** Reading the log of a run *)

Lemma calls_since_app s s' l : trace s' = trace s ++ l -> calls_since s s' = l.
Proof.
  intros E. unfold calls_since. rewrite E.
  rewrite skipn_app, skipn_all, Nat.sub_diag. reflexivity.
Qed.

Lemma ports_opened_app l l' :
  ports_opened (l ++ l') = (ports_opened l + ports_opened l')%nat.
Proof. unfold ports_opened. now rewrite filter_app, length_app. Qed.

Lemma events_emitted_app l l' :
  events_emitted (l ++ l') = events_emitted l ++ events_emitted l'.
Proof.
  induction l as [|[t c] l IH]; [reflexivity|].
  destruct c; cbn; try assumption. now rewrite IH.
Qed.

Lemma tabs_activated_app l l' :
  tabs_activated (l ++ l') = tabs_activated l ++ tabs_activated l'.
Proof.
  induction l as [|[t c] l IH]; [reflexivity|].
  destruct c; cbn; try assumption. now rewrite IH.
Qed.

Lemma then_resolve_state {A} (m : M A) s : snd (then_resolve m s) = snd (m s).
Proof. unfold then_resolve. now destruct (m s) as [[a|e|] s']. Qed.

Lemma then_resolve_fulfilled {A} (m : M A) s a :
  fst (m s) = Fulfilled a -> fst (then_resolve m s) = Fulfilled a.
Proof.
  unfold then_resolve. destruct (m s) as [[a'|e|] s']; cbn; congruence.
Qed.

(** ** What a handshake leaves behind *)

Lemma handshake_log_step n s t calls s' l :
  n > 0 ->
  ports_opened calls = 1%nat ->
  events_emitted calls = [] -> tabs_activated calls = [] ->
  handshake_log (n - 1) (attempt_state s t calls) s' l ->
  handshake_log n s s' (calls ++ l).
Proof.
  intros Hn Hp He Ha (Htr & Hu & Ht & Hpo & Hle & Hel & Hal).
  unfold handshake_log. cbn in Htr, Hu, Ht, Hpo.
  rewrite ports_opened_app, events_emitted_app, tabs_activated_app.
  rewrite Hp, He, Ha, Hel, Hal, Htr, <- app_assoc.
  repeat split; try assumption. lia.
Qed.

Lemma connectToTab_log h n s :
  exists l, handshake_log n s (snd (connectToTab h n s)) l.
Proof.
  remember (Z.to_nat n) as k eqn:Hk. revert n s Hk.
  induction k as [|k IH]; intros n s Hk.
  - exists []. rewrite connectToTab_exhausted by lia.
    unfold handshake_log; cbn. rewrite app_nil_r. repeat split; lia.
  - assert (Hn : n > 0) by lia.
    destruct (_tab s) as [t|] eqn:Ht.
    2:{ exists []. rewrite connectToTab_no_tab by assumption.
        unfold handshake_log; cbn. rewrite app_nil_r. repeat split; lia. }
    destruct (first_event (reaction h (attempt_port h s t)))
      as [|after|after msg] eqn:Hev.
    + rewrite (connectToTab_timeout h n s t Hn Ht Hev), then_resolve_state.
      destruct (IH (n - 1) (timeout_state s (attempt_port h s t))) as [l Hl];
        [lia|].
      eexists. eapply handshake_log_step; eauto; reflexivity.
    + rewrite (connectToTab_disconnect h n s t after Hn Ht Hev), then_resolve_state.
      destruct (IH (n - 1) (backoff_state s (attempt_port h s t) after))
        as [l Hl]; [lia|].
      eexists. eapply handshake_log_step; eauto; reflexivity.
    + rewrite (connectToTab_message h n s t after msg Hn Ht Hev).
      destruct (strict_eq_string (data msg) (attempt_name h s)); cbn [snd];
        eexists; unfold handshake_log; cbn;
        repeat split; try reflexivity; cbn; lia.
Qed.

Lemma connectToTab_fulfilled h n s t :
  _tab s = Some t -> exists r, fst (connectToTab h n s) = Fulfilled r.
Proof.
  remember (Z.to_nat n) as k eqn:Hk. revert n s Hk.
  induction k as [|k IH]; intros n s Hk Ht.
  - exists None. now rewrite connectToTab_exhausted by lia.
  - assert (Hn : n > 0) by lia.
    destruct (first_event (reaction h (attempt_port h s t)))
      as [|after|after msg] eqn:Hev.
    + rewrite (connectToTab_timeout h n s t Hn Ht Hev).
      destruct (IH (n - 1) (timeout_state s (attempt_port h s t)))
        as [r Hr]; [lia|exact Ht|].
      exists r. now apply then_resolve_fulfilled.
    + rewrite (connectToTab_disconnect h n s t after Hn Ht Hev).
      destruct (IH (n - 1) (backoff_state s (attempt_port h s t) after))
        as [r Hr]; [lia|exact Ht|].
      exists r. now apply then_resolve_fulfilled.
    + rewrite (connectToTab_message h n s t after msg Hn Ht Hev).
      destruct (strict_eq_string (data msg) (attempt_name h s));
        cbn [fst]; eexists; reflexivity.
Qed.

(** ** The paths of connect *)

Lemma log_call_with_calls c l s :
  log_call c (with_calls l s) = with_calls (l ++ [c]) s.
Proof.
  unfold log_call, with_calls, stamp; cbn.
  now rewrite map_app, <- app_assoc.
Qed.

Lemma log_call_fresh c s : log_call c s = with_calls [c] s.
Proof. reflexivity. Qed.

Lemma connect_denied h s :
  permission_granted h (_keeWebUrl s) = false ->
  connect h s =
  (Fulfilled tt,
   with_calls [PermissionsContains (_keeWebUrl s);
               Emit (Err (I18n "errorBrowserTabNoPermissions"
                            (Some (_keeWebUrl s))))] s).
Proof.
  intros Hp. unfold connect, bind at 1, checkPermissions, bind, get, call, ret.
  cbn [_keeWebUrl log_call]. rewrite Hp. cbn [negb].
  unfold emit, call, log_call, with_calls, stamp; cbn.
  now rewrite <- app_assoc.
Qed.

Lemma connect_no_tab h s :
  permission_granted h (_keeWebUrl s) = true ->
  found_tab h (_keeWebUrl s) = None ->
  connect h s =
  (Fulfilled tt,
   assign_tab None
     (with_calls (acquisition_calls h (_keeWebUrl s) ++
                  [Emit (Err (I18n "errorBrowserCannotCreateTab" None))]) s)).
Proof.
  intros Hp Hf. unfold found_tab in Hf.
  unfold connect, bind at 1, checkPermissions, bind, get, call, ret.
  cbn [_keeWebUrl log_call]. rewrite Hp. cbn [negb].
  unfold getActiveTab, findOrCreateTab, acquisition_calls, bind, get, call, ret.
  cbn [_keeWebUrl log_call].
  destruct (tabs_matching h (_keeWebUrl s)) as [|t0 ts]; [|discriminate].
  unfold bind, call, ret. rewrite Hf. unfold set_tab, emit, call.
  unfold log_call, assign_tab, with_calls; cbn. now rewrite <- !app_assoc.
Qed.

Lemma connect_acquired h s t :
  permission_granted h (_keeWebUrl s) = true ->
  found_tab h (_keeWebUrl s) = Some t ->
  connect h s =
  complete_connect h (active_tab h)
    (assign_tab (Some t) (with_calls (acquisition_calls h (_keeWebUrl s)) s)).
Proof.
  intros Hp Hf. unfold found_tab in Hf.
  unfold connect, bind at 1, checkPermissions, bind, get, call, ret.
  cbn [_keeWebUrl log_call]. rewrite Hp. cbn [negb].
  unfold getActiveTab, findOrCreateTab, acquisition_calls, bind, get, call, ret.
  cbn [_keeWebUrl log_call].
  destruct (tabs_matching h (_keeWebUrl s)) as [|t0 ts].
  - unfold bind, call, ret. rewrite Hf. unfold set_tab, complete_connect, bind.
    match goal with |- context [connectToTab h _ ?a] =>
      replace a with
        (assign_tab (Some t)
           (with_calls ([PermissionsContains (_keeWebUrl s); GetActiveTab;
                         TabsQuery (_keeWebUrl s)] ++
                        [TabsCreate (_keeWebUrl s) true]) s))
    end; [reflexivity|].
    unfold log_call, assign_tab, with_calls; cbn. now rewrite <- !app_assoc.
  - injection Hf as ->. unfold ret, set_tab, complete_connect, bind.
    match goal with |- context [connectToTab h _ ?a] =>
      replace a with
        (assign_tab (Some t)
           (with_calls ([PermissionsContains (_keeWebUrl s); GetActiveTab;
                         TabsQuery (_keeWebUrl s)] ++ []) s))
    end; [reflexivity|].
    unfold log_call, assign_tab, with_calls; cbn. now rewrite <- !app_assoc.
Qed.

Lemma restore_focus_tracked h t s :
  _tab s = Some t ->
  restore_focus (active_tab h) s = (Fulfilled tt, with_calls (focus_calls h t) s).
Proof.
  intros Ht. unfold restore_focus, focus_calls.
  assert (Hid : with_calls [] s = s).
  { destruct s; unfold with_calls; cbn. now rewrite app_nil_r. }
  destruct (active_tab h) as [a|]; [|now rewrite Hid].
  unfold bind, get. rewrite Ht.
  destruct (tab_id t =? tab_id a); cbn [negb]; [now rewrite Hid|reflexivity].
Qed.

Lemma connect_handshake h s t :
  permission_granted h (_keeWebUrl s) = true ->
  found_tab h (_keeWebUrl s) = Some t ->
  exists r s2 l,
    connectToTab h _maxTabConnectionRetries
      (assign_tab (Some t) (with_calls (acquisition_calls h (_keeWebUrl s)) s))
    = (Fulfilled r, s2) /\
    handshake_log _maxTabConnectionRetries
      (assign_tab (Some t) (with_calls (acquisition_calls h (_keeWebUrl s)) s))
      s2 l /\
    connect h s =
    (Fulfilled tt, with_calls (closing_calls h t r) (assign_port r s2)).
Proof.
  intros Hp Hf. rewrite (connect_acquired h s t Hp Hf).
  set (s1 := assign_tab (Some t) (with_calls (acquisition_calls h (_keeWebUrl s)) s)).
  destruct (connectToTab_fulfilled h _maxTabConnectionRetries s1 t eq_refl)
    as [r Hr].
  destruct (connectToTab_log h _maxTabConnectionRetries s1) as [l Hl].
  destruct (connectToTab h _maxTabConnectionRetries s1) as [r' s2] eqn:Hrun.
  cbn [fst] in Hr. cbn [snd] in Hl. subst r'.
  exists r, s2, l. split; [reflexivity|]. split; [exact Hl|].
  unfold complete_connect, bind at 1. rewrite Hrun.
  unfold bind at 1, set_port.
  assert (Ht2 : _tab (assign_port r s2) = Some t).
  { destruct Hl as (_ & _ & Ht & _). cbn. rewrite Ht. reflexivity. }
  destruct r as [p|]; unfold closing_calls.
  - unfold bind, call.
    rewrite (restore_focus_tracked h t); [|exact Ht2].
    unfold log_call, with_calls, stamp; cbn.
    now rewrite <- !app_assoc.
  - unfold bind. rewrite (restore_focus_tracked h t _ Ht2).
    unfold emit, call, log_call, with_calls, stamp; cbn.
    now rewrite map_app, <- !app_assoc.
Qed.

Lemma stamp_app t l l' : stamp t (l ++ l') = stamp t l ++ stamp t l'.
Proof. apply map_app. Qed.

Lemma acquisition_quiet h url t :
  ports_opened (stamp t (acquisition_calls h url)) = 0%nat /\
  events_emitted (stamp t (acquisition_calls h url)) = [] /\
  tabs_activated (stamp t (acquisition_calls h url)) = [].
Proof.
  unfold acquisition_calls. now destruct (tabs_matching h url).
Qed.

Lemma focus_quiet h t0 t :
  ports_opened (stamp t (focus_calls h t0)) = 0%nat /\
  events_emitted (stamp t (focus_calls h t0)) = [].
Proof.
  unfold focus_calls. destruct (active_tab h) as [a|]; [|now split].
  now destruct (tab_id t0 =? tab_id a).
Qed.

Lemma closing_ports h t0 r t :
  ports_opened (stamp t (closing_calls h t0 r)) = 0%nat.
Proof.
  destruct r as [p|]; unfold closing_calls;
    rewrite stamp_app, ports_opened_app, (proj1 (focus_quiet h t0 t));
    reflexivity.
Qed.

Lemma closing_events h t0 r t :
  events_emitted (stamp t (closing_calls h t0 r)) =
  match r with
  | None => [Err (I18n "errorBrowserCannotConnectToTab" None)]
  | Some _ => []
  end.
Proof.
  destruct r as [p|]; unfold closing_calls;
    rewrite stamp_app, events_emitted_app, (proj2 (focus_quiet h t0 t));
    reflexivity.
Qed.

Lemma closing_activations h t0 r t :
  tabs_activated (stamp t (closing_calls h t0 r)) =
  match active_tab h with
  | Some active => if tab_id t0 =? tab_id active then [] else [active]
  | None => []
  end.
Proof.
  assert (Hf : tabs_activated (stamp t (focus_calls h t0)) =
               match active_tab h with
               | Some active => if tab_id t0 =? tab_id active then [] else [active]
               | None => []
               end).
  { unfold focus_calls. destruct (active_tab h) as [a|]; [|reflexivity].
    now destruct (tab_id t0 =? tab_id a). }
  destruct r as [p|]; unfold closing_calls;
    rewrite stamp_app, tabs_activated_app, Hf; cbn.
  - reflexivity.
  - now rewrite app_nil_r.
Qed.

(** The whole of a [connect] that acquired the tab [t]: it is fulfilled,
    it tracks [t] and the port [r] of the handshake, and its log is the
    acquisition, the handshake and the closing calls. *)
Lemma connect_acquired_log h s t :
  permission_granted h (_keeWebUrl s) = true ->
  found_tab h (_keeWebUrl s) = Some t ->
  exists r s' l t2,
    connect h s = (Fulfilled tt, s') /\
    _tab s' = Some t /\ _port s' = r /\
    calls_since s s' =
      stamp (now s) (acquisition_calls h (_keeWebUrl s)) ++ l ++
      stamp t2 (closing_calls h t r) /\
    (ports_opened l <= Z.to_nat _maxTabConnectionRetries)%nat /\
    events_emitted l = [] /\ tabs_activated l = [].
Proof.
  intros Hp Hf.
  destruct (connect_handshake h s t Hp Hf)
    as (r & s2 & l & _ & (Htr & _ & Ht & _ & Hpo & He & Ha) & Hc).
  exists r, (with_calls (closing_calls h t r) (assign_port r s2)), l, (now s2).
  split; [exact Hc|]. split; [exact Ht|]. split; [reflexivity|].
  split; [|now repeat split].
  apply calls_since_app. cbn. rewrite Htr. cbn.
  now rewrite <- !app_assoc.
Qed.

(** ** The handshake *)

Lemma strict_eq_string_spec v s : strict_eq_string v s = true <-> v = JsString s.
Proof.
  destruct v as [| |b|z|s0]; cbn; try (split; intros; discriminate).
  rewrite String.eqb_eq. split; [now intros ->|now intros [= ->]].
Qed.

Lemma strict_eq_string_false v s : v <> JsString s -> strict_eq_string v s = false.
Proof.
  intros Hne. destruct (strict_eq_string v s) eqn:E; [|reflexivity].
  now apply strict_eq_string_spec in E.
Qed.

(** C1: in an attempt whose first event is a message, the handshake
    succeeds with the port of that attempt if and only if the [data] of
    the message is the name drawn for the attempt, the name the port was
    opened under and the ping carried; any other message closes the port
    and fails at once, whatever budget is left: one port was opened. *)
Theorem handshake_message_decides h n s t after msg :
  n > 0 -> _tab s = Some t ->
  first_event (reaction h (attempt_port h s t)) = MessageFired after msg ->
  let name := attempt_name h s in
  let port := attempt_port h s t in
  let run := connectToTab h n s in
  let opening :=
    stamp (now s)
      [ TabsConnect (tab_id t) name;
        SetTimeout (ResponseTimeout port) _tabConnectionTimeoutMillis;
        AddListener port OnDisconnect tabDisconnectedListener;
        AddListener port OnMessage tabMessageListener;
        PostMessage port {| action := JsString "ping"; data := JsString name |} ] in
  port_name port = name /\
  (fst run = Fulfilled (Some port) <-> data msg = JsString name) /\
  (data msg = JsString name ->
   calls_since s (snd run) =
   opening ++ stamp (now s + after) (cleanup_calls port)) /\
  (data msg <> JsString name ->
   fst run = Fulfilled None /\
   calls_since s (snd run) =
   opening ++ stamp (now s + after) (cleanup_calls port ++ [PortDisconnect port])) /\
  ports_opened (calls_since s (snd run)) = 1%nat.
Proof.
  intros Hn Ht Hev name port run opening. subst run.
  rewrite (connectToTab_message h n s t after msg Hn Ht Hev).
  fold name port. split; [reflexivity|].
  destruct (strict_eq_string (data msg) name) eqn:E.
  - apply strict_eq_string_spec in E. cbn [fst snd].
    split; [tauto|]. split; [|split].
    + intros _. now apply calls_since_app.
    + intros Hne. contradiction.
    + now erewrite calls_since_app by reflexivity.
  - assert (Hne : data msg <> JsString name).
    { intros Heq. apply strict_eq_string_spec in Heq. congruence. }
    cbn [fst snd]. split; [|split; [|split]].
    + split; [discriminate|contradiction].
    + contradiction.
    + intros _. split; [reflexivity|]. now apply calls_since_app.
    + now erewrite calls_since_app by reflexivity.
Qed.

Lemma handshake_message_decides_witness :
  fst (connectToTab echo_host 10 tab_acquired) =
  Fulfilled (Some (attempt_port echo_host tab_acquired keeweb_tab)).
Proof.
  pose proof (handshake_message_decides echo_host 10 tab_acquired keeweb_tab
                20 (pong "keeweb-connect-AAAA") eq_refl eq_refl eq_refl) as W.
  cbv zeta in W. destruct W as (_ & W & _). apply W. reflexivity.
Defined.

(** C2, the claim as stated fails: a stale pong in the first attempt of a
    handshake with budget 10 ends the handshake; it does not go on as the
    handshake with budget 9 from the state the attempt ended in, which
    would have opened a second port and succeeded. *)
Lemma stale_pong_spends_no_budget :
  let s := tab_acquired in
  let port := attempt_port stale_host s keeweb_tab in
  let s1 := repudiated_state s port 20 in
  first_event (reaction stale_host port) =
    MessageFired 20 (pong "keeweb-connect-ZZZZ") /\
  JsString "keeweb-connect-ZZZZ" <> JsString (attempt_name stale_host s) /\
  connectToTab stale_host 10 s = (Fulfilled None, s1) /\
  ports_opened (calls_since s s1) = 1%nat /\
  connectToTab stale_host 10 s <>
    then_resolve (connectToTab stale_host (10 - 1)) s1.
Proof.
  cbv zeta. split; [reflexivity|]. split; [discriminate|].
  split; [reflexivity|]. split; [reflexivity|].
  intros E. apply (f_equal fst) in E. vm_compute in E. discriminate.
Qed.

(** When no attempt gets a message, every attempt spends one unit of the
    budget: the handshake fails after exactly [n] attempts. *)
Lemma connectToTab_exhausts h n s t :
  0 <= n -> _tab s = Some t ->
  (forall p after msg, first_event (reaction h p) <> MessageFired after msg) ->
  fst (connectToTab h n s) = Fulfilled None /\
  ports_opened (calls_since s (snd (connectToTab h n s))) = Z.to_nat n.
Proof.
  intros Hn Ht Hquiet.
  remember (Z.to_nat n) as k eqn:Hk. revert n s Hn Hk Ht.
  induction k as [|k IH]; intros n s Hn Hk Ht.
  - rewrite connectToTab_exhausted by lia. split; [reflexivity|].
    unfold calls_since, ret; cbn. now rewrite skipn_all.
  - assert (Hpos : n > 0) by lia.
    destruct (first_event (reaction h (attempt_port h s t)))
      as [|after|after msg] eqn:Hev.
    + rewrite (connectToTab_timeout h n s t Hpos Ht Hev), then_resolve_state.
      destruct (IH (n - 1) (timeout_state s (attempt_port h s t)))
        as [Hr Hp]; [lia|lia|exact Ht|].
      split; [now apply then_resolve_fulfilled|].
      destruct (connectToTab_log h (n - 1) (timeout_state s (attempt_port h s t)))
        as [l (Htr & _)].
      rewrite (calls_since_app _ _ l Htr) in Hp.
      erewrite calls_since_app
        by (rewrite Htr; cbn; rewrite <- app_assoc; reflexivity).
      rewrite ports_opened_app, Hp. reflexivity.
    + rewrite (connectToTab_disconnect h n s t after Hpos Ht Hev),
        then_resolve_state.
      destruct (IH (n - 1) (backoff_state s (attempt_port h s t) after))
        as [Hr Hp]; [lia|lia|exact Ht|].
      split; [now apply then_resolve_fulfilled|].
      destruct (connectToTab_log h (n - 1)
                  (backoff_state s (attempt_port h s t) after))
        as [l (Htr & _)].
      rewrite (calls_since_app _ _ l Htr) in Hp.
      erewrite calls_since_app
        by (rewrite Htr; cbn; rewrite <- app_assoc; reflexivity).
      rewrite ports_opened_app, Hp. reflexivity.
    + now apply Hquiet in Hev.
Qed.

Lemma connect_port_of_handshake h s t :
  permission_granted h (_keeWebUrl s) = true ->
  found_tab h (_keeWebUrl s) = Some t ->
  fst (connectToTab h 10
         (assign_tab (Some t) (with_calls (acquisition_calls h (_keeWebUrl s)) s)))
  = Fulfilled (_port (snd (connect h s))).
Proof.
  intros Hp Hf.
  destruct (connect_handshake h s t Hp Hf) as (r & s2 & l & Hrun & _ & Hc).
  change 10 with _maxTabConnectionRetries. now rewrite Hrun, Hc.
Qed.

(** C2 (amended): the budget, 10 at the start of [connect], is spent by
    one unit on an attempt that ends by timeout and on one that ends by
    the disconnection of its port: the handshake goes on with
    [retriesLeft - 1].  A mismatched or garbled pong spends nothing: it
    ends the handshake in failure at once.  A budget of 0 or less is a
    failure, so a handshake without messages fails after exactly
    [retriesLeft] attempts. *)
Theorem budget_spent_by_timeout_and_disconnect h n s t :
  n > 0 -> _tab s = Some t ->
  let port := attempt_port h s t in
  (first_event (reaction h port) = TimeoutFired ->
   connectToTab h n s =
   then_resolve (connectToTab h (n - 1)) (timeout_state s port)) /\
  (forall after,
   first_event (reaction h port) = DisconnectFired after ->
   connectToTab h n s =
   then_resolve (connectToTab h (n - 1)) (backoff_state s port after)) /\
  (forall after msg,
   first_event (reaction h port) = MessageFired after msg ->
   data msg <> JsString (attempt_name h s) ->
   connectToTab h n s = (Fulfilled None, repudiated_state s port after)) /\
  (forall b s0, b <= 0 -> connectToTab h b s0 = (Fulfilled None, s0)) /\
  ((forall p after msg, first_event (reaction h p) <> MessageFired after msg) ->
   fst (connectToTab h n s) = Fulfilled None /\
   ports_opened (calls_since s (snd (connectToTab h n s))) = Z.to_nat n) /\
  (forall s0 t0,
   permission_granted h (_keeWebUrl s0) = true ->
   found_tab h (_keeWebUrl s0) = Some t0 ->
   fst (connectToTab h 10
          (assign_tab (Some t0)
             (with_calls (acquisition_calls h (_keeWebUrl s0)) s0)))
   = Fulfilled (_port (snd (connect h s0)))).
Proof.
  intros Hn Ht port. repeat split.
  - intros Hev. now apply connectToTab_timeout.
  - intros after Hev. now apply connectToTab_disconnect.
  - intros after msg Hev Hne.
    rewrite (connectToTab_message h n s t after msg Hn Ht Hev).
    now rewrite (strict_eq_string_false _ _ Hne).
  - intros b s0 Hb. now rewrite connectToTab_exhausted.
  - eapply connectToTab_exhausts; eauto; lia.
  - eapply connectToTab_exhausts; eauto; lia.
  - intros s0 t0. apply connect_port_of_handshake.
Qed.

Lemma budget_spent_by_timeout_and_disconnect_witness :
  connectToTab silent_host 10 tab_acquired =
  then_resolve (connectToTab silent_host (10 - 1))
    (timeout_state tab_acquired (attempt_port silent_host tab_acquired keeweb_tab)).
Proof.
  pose proof (budget_spent_by_timeout_and_disconnect silent_host 10
                tab_acquired keeweb_tab eq_refl eq_refl) as W.
  cbv zeta in W. destruct W as (W & _). apply W. reflexivity.
Defined.

(** ** Termination and the number of ports *)

Lemma calls_since_with_calls l s : calls_since s (with_calls l s) = stamp (now s) l.
Proof. now apply calls_since_app. Qed.

Lemma connectToTab_ports h n s :
  (ports_opened (calls_since s (snd (connectToTab h n s))) <= Z.to_nat n)%nat.
Proof.
  destruct (connectToTab_log h n s) as [l (Htr & _ & _ & _ & Hp & _)].
  now rewrite (calls_since_app _ _ l Htr).
Qed.

Lemma connect_ports h s :
  (ports_opened (calls_since s (snd (connect h s))) <= 10)%nat.
Proof.
  destruct (permission_granted h (_keeWebUrl s)) eqn:Hp.
  2:{ rewrite (connect_denied h s Hp). cbn [snd].
      rewrite calls_since_with_calls. cbn. lia. }
  destruct (found_tab h (_keeWebUrl s)) as [t|] eqn:Hf.
  2:{ rewrite (connect_no_tab h s Hp Hf). cbn [snd].
      erewrite calls_since_app by reflexivity.
      rewrite stamp_app, ports_opened_app.
      rewrite (proj1 (acquisition_quiet h _ _)). cbn. lia. }
  destruct (connect_acquired_log h s t Hp Hf)
    as (r & s' & l & t2 & Hc & _ & _ & Hcalls & Hpo & _).
  rewrite Hc. cbn [snd]. rewrite Hcalls, !ports_opened_app.
  rewrite (proj1 (acquisition_quiet h _ _)), closing_ports.
  change (Z.to_nat _maxTabConnectionRetries) with 10%nat in Hpo. lia.
Qed.

(** C3: the handshake terminates.  [connectToTab] is a total function,
    defined by recursion on its budget: an attempt opens one port and
    then either ends the handshake or goes on with the budget lowered by
    one; with a budget of 0 or less it fails without a call to the host;
    it opens at most as many ports as its budget, hence [connect] at most
    10; with budget 1 and a failing attempt it makes exactly one
    attempt. *)
Theorem handshake_terminates h :
  (forall n s t,
   n > 0 -> _tab s = Some t ->
   (Z.to_nat (n - 1) < Z.to_nat n)%nat /\
   exists s1,
     ports_opened (calls_since s s1) = 1%nat /\
     ((exists r, connectToTab h n s = (Fulfilled r, s1)) \/
      connectToTab h n s = then_resolve (connectToTab h (n - 1)) s1)) /\
  (forall n s, n <= 0 -> connectToTab h n s = (Fulfilled None, s)) /\
  (forall n s,
   (ports_opened (calls_since s (snd (connectToTab h n s))) <= Z.to_nat n)%nat) /\
  (forall s, (ports_opened (calls_since s (snd (connect h s))) <= 10)%nat) /\
  (forall s t,
   _tab s = Some t ->
   (forall after msg,
    first_event (reaction h (attempt_port h s t)) = MessageFired after msg ->
    data msg <> JsString (attempt_name h s)) ->
   fst (connectToTab h 1 s) = Fulfilled None /\
   ports_opened (calls_since s (snd (connectToTab h 1 s))) = 1%nat).
Proof.
  split.
  { intros n s t Hn Ht. split; [lia|].
    destruct (first_event (reaction h (attempt_port h s t)))
      as [|after|after msg] eqn:Hev.
    - exists (timeout_state s (attempt_port h s t)).
      split; [now erewrite calls_since_app by reflexivity|].
      right. now apply connectToTab_timeout.
    - exists (backoff_state s (attempt_port h s t) after).
      split; [now erewrite calls_since_app by reflexivity|].
      right. now apply connectToTab_disconnect.
    - rewrite (connectToTab_message h n s t after msg Hn Ht Hev).
      destruct (strict_eq_string (data msg) (attempt_name h s));
        eexists; (split; [|left; eexists; reflexivity]);
        now erewrite calls_since_app by reflexivity. }
  split; [intros n s Hn; now rewrite connectToTab_exhausted|].
  split; [intros n s; apply connectToTab_ports|].
  split; [apply connect_ports|].
  intros s t Ht Hfail.
  destruct (first_event (reaction h (attempt_port h s t)))
    as [|after|after msg] eqn:Hev.
  - rewrite (connectToTab_timeout h 1 s t eq_refl Ht Hev).
    unfold then_resolve. rewrite connectToTab_exhausted by lia.
    cbn [ret fst snd]. split; [reflexivity|].
    now erewrite calls_since_app by reflexivity.
  - rewrite (connectToTab_disconnect h 1 s t after eq_refl Ht Hev).
    unfold then_resolve. rewrite connectToTab_exhausted by lia.
    cbn [ret fst snd]. split; [reflexivity|].
    now erewrite calls_since_app by reflexivity.
  - rewrite (connectToTab_message h 1 s t after msg eq_refl Ht Hev).
    rewrite (strict_eq_string_false _ _ (Hfail after msg eq_refl)).
    cbn [fst snd]. split; [reflexivity|].
    now erewrite calls_since_app by reflexivity.
Qed.

Lemma handshake_terminates_witness :
  fst (connectToTab silent_host 1 tab_acquired) = Fulfilled None /\
  ports_opened (calls_since tab_acquired
                  (snd (connectToTab silent_host 1 tab_acquired))) = 1%nat.
Proof.
  apply (proj2 (proj2 (proj2 (proj2 (handshake_terminates silent_host))))
           tab_acquired keeweb_tab eq_refl).
  intros after msg Hev. discriminate Hev.
Defined.

(** ** The delay between attempts *)

(** An attempt with budget starts by opening its port at once. *)
Lemma connectToTab_starts h n s t :
  n > 0 -> _tab s = Some t ->
  exists rest,
    calls_since s (snd (connectToTab h n s)) =
    (now s, TabsConnect (tab_id t) (attempt_name h s)) :: rest.
Proof.
  intros Hn Ht.
  destruct (first_event (reaction h (attempt_port h s t)))
    as [|after|after msg] eqn:Hev.
  - rewrite (connectToTab_timeout h n s t Hn Ht Hev), then_resolve_state.
    destruct (connectToTab_log h (n - 1) (timeout_state s (attempt_port h s t)))
      as [l (Htr & _)].
    eexists. apply calls_since_app. rewrite Htr. cbn.
    rewrite <- app_assoc. cbn. reflexivity.
  - rewrite (connectToTab_disconnect h n s t after Hn Ht Hev), then_resolve_state.
    destruct (connectToTab_log h (n - 1)
                (backoff_state s (attempt_port h s t) after))
      as [l (Htr & _)].
    eexists. apply calls_since_app. rewrite Htr. cbn.
    rewrite <- app_assoc. cbn. reflexivity.
  - rewrite (connectToTab_message h n s t after msg Hn Ht Hev).
    destruct (strict_eq_string (data msg) (attempt_name h s)); cbn [snd];
      eexists; apply calls_since_app; cbn; reflexivity.
Qed.

(** The log of an attempt that is followed by a retry from [s1]. *)
Lemma retry_log h n s s1 t calls :
  n > 0 -> _tab s = Some t ->
  s1 = attempt_state s (now s1) calls ->
  exists rest,
    calls_since s (snd (then_resolve (connectToTab h n) s1)) =
    calls ++ (now s1, TabsConnect (tab_id t) (attempt_name h s1)) :: rest.
Proof.
  intros Hn Ht Hs1. rewrite then_resolve_state.
  assert (Ht1 : _tab s1 = Some t) by (rewrite Hs1; exact Ht).
  destruct (connectToTab_starts h n s1 t Hn Ht1) as [rest Hrest].
  destruct (connectToTab_log h n s1) as [l (Htr & _)].
  rewrite (calls_since_app _ _ l Htr) in Hrest. subst l.
  exists rest. apply calls_since_app. rewrite Htr.
  rewrite Hs1 at 1. cbn. now rewrite <- app_assoc.
Qed.

(** C4: a failed attempt that leaves budget.  After a timeout the
    listeners and the timer are removed, the port is closed, and the next
    port is opened at the very time the timeout fired.  After a
    disconnection of the port the listeners and the timer are removed, a
    timer of 500 ms is set, and the next port is opened 500 ms after the
    disconnection. *)
Theorem retry_without_delay_or_after_backoff h n s t :
  n > 1 -> _tab s = Some t ->
  let port := attempt_port h s t in
  (first_event (reaction h port) = TimeoutFired ->
   exists name' rest,
     calls_since s (snd (connectToTab h n s)) =
     stamp (now s) (opening_calls port) ++
     stamp (now s + 500)
       [ ClearTimeout (ResponseTimeout port);
         RemoveListener port OnDisconnect tabDisconnectedListener;
         RemoveListener port OnMessage tabMessageListener;
         PortDisconnect port ] ++
     ((now s + 500)%N, TabsConnect (tab_id t) name') :: rest) /\
  (forall after,
   first_event (reaction h port) = DisconnectFired after ->
   exists name' rest,
     calls_since s (snd (connectToTab h n s)) =
     stamp (now s) (opening_calls port) ++
     stamp (now s + after)
       [ ClearTimeout (ResponseTimeout port);
         RemoveListener port OnDisconnect tabDisconnectedListener;
         RemoveListener port OnMessage tabMessageListener;
         SetTimeout (RetryTimer port) 500 ] ++
     ((now s + after + 500)%N, TabsConnect (tab_id t) name') :: rest).
Proof.
  intros Hn Ht port. split.
  - intros Hev.
    rewrite (connectToTab_timeout h n s t ltac:(lia) Ht Hev). fold port.
    destruct (retry_log h (n - 1) s (timeout_state s port) t
                (stamp (now s) (opening_calls port) ++
                 stamp (now s + _tabConnectionTimeoutMillis)
                   (cleanup_calls port ++ [PortDisconnect port])))
      as [rest Hrest]; [lia|exact Ht|reflexivity|].
    exists (attempt_name h (timeout_state s port)), rest.
    rewrite Hrest, <- app_assoc. reflexivity.
  - intros after Hev.
    rewrite (connectToTab_disconnect h n s t after ltac:(lia) Ht Hev). fold port.
    destruct (retry_log h (n - 1) s (backoff_state s port after) t
                (stamp (now s) (opening_calls port) ++
                 stamp (now s + after)
                   (cleanup_calls port ++
                    [SetTimeout (RetryTimer port) _tabConnectionRetryMillis])))
      as [rest Hrest]; [lia|exact Ht|reflexivity|].
    exists (attempt_name h (backoff_state s port after)), rest.
    rewrite Hrest, <- app_assoc. reflexivity.
Qed.

Lemma retry_without_delay_or_after_backoff_witness :
  exists name' rest,
    calls_since tab_acquired (snd (connectToTab silent_host 10 tab_acquired)) =
    stamp 0 (opening_calls (attempt_port silent_host tab_acquired keeweb_tab)) ++
    stamp 500
      [ ClearTimeout
          (ResponseTimeout (attempt_port silent_host tab_acquired keeweb_tab));
        RemoveListener (attempt_port silent_host tab_acquired keeweb_tab)
          OnDisconnect tabDisconnectedListener;
        RemoveListener (attempt_port silent_host tab_acquired keeweb_tab)
          OnMessage tabMessageListener;
        PortDisconnect (attempt_port silent_host tab_acquired keeweb_tab) ] ++
    (500%N, TabsConnect 7 name') :: rest.
Proof.
  pose proof (retry_without_delay_or_after_backoff silent_host 10
                tab_acquired keeweb_tab eq_refl eq_refl) as W.
  cbv zeta in W. destruct W as (W & _). apply W. reflexivity.
Defined.

(** ** connect *)

Lemma calls_since_assign_tab t l s :
  calls_since s (assign_tab t (with_calls l s)) = stamp (now s) l.
Proof. now apply calls_since_app. Qed.

(** C5: [connect] never throws and never rejects.  Each of its failures
    (permission denied, no tab, handshake failed) ends in a fulfilled
    promise, with one event emitted, an error, and without a port: the
    early failures leave the port field as it was, a failed handshake
    leaves it empty. *)
Theorem connect_never_rejects h s :
  let s' := snd (connect h s) in
  let url := _keeWebUrl s in
  fst (connect h s) = Fulfilled tt /\
  (permission_granted h url = false ->
   events_emitted (calls_since s s') =
     [Err (I18n "errorBrowserTabNoPermissions" (Some url))] /\
   _port s' = _port s) /\
  (permission_granted h url = true -> found_tab h url = None ->
   events_emitted (calls_since s s') =
     [Err (I18n "errorBrowserCannotCreateTab" None)] /\
   _port s' = _port s) /\
  (forall t,
   permission_granted h url = true -> found_tab h url = Some t ->
   fst (connectToTab h 10
          (assign_tab (Some t) (with_calls (acquisition_calls h url) s)))
   = Fulfilled None ->
   events_emitted (calls_since s s') =
     [Err (I18n "errorBrowserCannotConnectToTab" None)] /\
   _port s' = None) /\
  (_port s = None -> events_emitted (calls_since s s') <> [] -> _port s' = None).
Proof.
  cbv zeta.
  destruct (permission_granted h (_keeWebUrl s)) eqn:Hp.
  2:{ rewrite (connect_denied h s Hp). cbn [fst snd].
      rewrite calls_since_with_calls.
      repeat split; try discriminate; intros; assumption. }
  destruct (found_tab h (_keeWebUrl s)) as [t|] eqn:Hf.
  2:{ rewrite (connect_no_tab h s Hp Hf). cbn [fst snd].
      rewrite calls_since_assign_tab, stamp_app, events_emitted_app.
      rewrite (proj1 (proj2 (acquisition_quiet h _ _))).
      repeat split; try discriminate; intros; assumption. }
  pose proof (connect_port_of_handshake h s t Hp Hf) as Hport.
  destruct (connect_acquired_log h s t Hp Hf)
    as (r & s' & l & t2 & Hc & _ & Hr & Hcalls & _ & He & _).
  rewrite Hc in *. cbn [fst snd] in *. rewrite Hcalls.
  rewrite !events_emitted_app, He, closing_events.
  rewrite (proj1 (proj2 (acquisition_quiet h _ _))). cbn [app].
  split; [reflexivity|]. split; [discriminate|]. split; [discriminate|].
  subst r. split.
  - intros t' _ [= <-] Hfail. rewrite Hfail in Hport.
    injection Hport as Hnone. rewrite <- Hnone. now split.
  - intros _ Hev. destruct (_port s') as [p|]; [now contradiction Hev|].
    reflexivity.
Qed.

Lemma connect_never_rejects_witness :
  events_emitted
    (calls_since (new_TransportBrowserTab keeweb)
       (snd (connect denying_host (new_TransportBrowserTab keeweb)))) =
  [Err (I18n "errorBrowserTabNoPermissions" (Some keeweb))] /\
  _port (snd (connect denying_host (new_TransportBrowserTab keeweb))) = None.
Proof.
  pose proof (connect_never_rejects denying_host (new_TransportBrowserTab keeweb))
    as W.
  cbv zeta in W. destruct W as (_ & W & _). apply W. reflexivity.
Defined.

(** C9: focus restoration.  When [connect] has acquired the tab [t], it
    activates the tab that was active at its start exactly once if that
    tab is another tab than [t], and never if it is [t] or if no tab was
    active; this does not depend on how the handshake ends. *)
Theorem focus_restored_once h s t :
  permission_granted h (_keeWebUrl s) = true ->
  found_tab h (_keeWebUrl s) = Some t ->
  let s' := snd (connect h s) in
  (forall active,
   active_tab h = Some active -> tab_id active <> tab_id t ->
   tabs_activated (calls_since s s') = [active]) /\
  (forall active,
   active_tab h = Some active -> tab_id active = tab_id t ->
   tabs_activated (calls_since s s') = []) /\
  (active_tab h = None -> tabs_activated (calls_since s s') = []).
Proof.
  intros Hp Hf. cbv zeta.
  destruct (connect_acquired_log h s t Hp Hf)
    as (r & s' & l & t2 & Hc & _ & _ & Hcalls & _ & _ & Ha).
  rewrite Hc. cbn [snd]. rewrite Hcalls, !tabs_activated_app, Ha.
  rewrite closing_activations.
  rewrite (proj2 (proj2 (acquisition_quiet h _ _))). cbn [app].
  repeat split.
  - intros a -> Hne. destruct (Z.eqb_spec (tab_id t) (tab_id a)); congruence.
  - intros a -> Heq. rewrite Heq, Z.eqb_refl. reflexivity.
  - now intros ->.
Qed.

Lemma focus_restored_once_witness :
  tabs_activated
    (calls_since (new_TransportBrowserTab keeweb)
       (snd (connect echo_host (new_TransportBrowserTab keeweb)))) = [other_tab].
Proof.
  pose proof (focus_restored_once echo_host (new_TransportBrowserTab keeweb)
                keeweb_tab eq_refl eq_refl) as W.
  cbv zeta in W. destruct W as (W & _).
  apply W; [reflexivity|discriminate].
Defined.

(** The three situations of C9 on the sample hosts: a successful
    handshake, an exhausted one, and a KeeWeb tab that was active. *)
Example focus_after_success :
  _port (snd (connect echo_host (new_TransportBrowserTab keeweb))) <> None /\
  tabs_activated (trace (snd (connect echo_host (new_TransportBrowserTab keeweb))))
  = [other_tab].
Proof. split; [discriminate|reflexivity]. Qed.

Example focus_after_exhaustion :
  _port (snd (connect silent_host (new_TransportBrowserTab keeweb))) = None /\
  ports_opened (trace (snd (connect silent_host (new_TransportBrowserTab keeweb))))
  = 10%nat /\
  tabs_activated (trace (snd (connect silent_host (new_TransportBrowserTab keeweb))))
  = [other_tab].
Proof. repeat split; reflexivity. Qed.

Example focus_kept :
  tabs_activated (trace (snd (connect focused_host (new_TransportBrowserTab keeweb))))
  = [].
Proof. reflexivity. Qed.

(** ** Teardown *)

(** C6, the claim as stated fails: after a [connect] whose handshake ran
    out of budget the port is empty but the tab is still tracked. *)
Lemma tab_survives_failed_handshake :
  let s' := snd (connect silent_host (new_TransportBrowserTab keeweb)) in
  events_emitted (trace s') = [Err (I18n "errorBrowserCannotConnectToTab" None)] /\
  ~ (_tab s' = None /\ _port s' = None).
Proof.
  cbv zeta. split; [reflexivity|]. intros [Ht _]. vm_compute in Ht. discriminate.
Qed.

Lemma disconnect_run s :
  disconnect s =
  (Fulfilled tt,
   match _port s with
   | Some p =>
       assign_port None
         (with_calls [PortDisconnect p;
                      Emit (Err (I18n "errorKeeWebDisconnected" None))]
            (assign_tab None s))
   | None => assign_tab None s
   end).
Proof.
  unfold disconnect, bind, set_tab, get. cbn [_port assign_tab].
  destruct (_port s) as [p|] eqn:Hp.
  - unfold call, bind, set_port, emit, call. cbn [_port log_call].
    unfold log_call, assign_port, with_calls, assign_tab; cbn.
    rewrite Hp. cbn. now rewrite <- app_assoc.
  - unfold ret. cbn. rewrite Hp. reflexivity.
Qed.

(** C6 (amended): [disconnect] clears the tab and the port together.  A
    [connect] whose handshake fails clears the port and keeps tracking
    the tab it had acquired. *)
Theorem teardown_of_tab_and_port h s :
  (_tab (snd (disconnect s)) = None /\ _port (snd (disconnect s)) = None) /\
  (forall t,
   permission_granted h (_keeWebUrl s) = true ->
   found_tab h (_keeWebUrl s) = Some t ->
   fst (connectToTab h 10
          (assign_tab (Some t)
             (with_calls (acquisition_calls h (_keeWebUrl s)) s)))
   = Fulfilled None ->
   _port (snd (connect h s)) = None /\ _tab (snd (connect h s)) = Some t).
Proof.
  split.
  - rewrite disconnect_run. cbn [snd].
    destruct (_port s) eqn:Hp; split; cbn; try reflexivity. exact Hp.
  - intros t Hp Hf Hfail.
    pose proof (connect_port_of_handshake h s t Hp Hf) as Hport.
    rewrite Hfail in Hport. injection Hport as Hnone.
    destruct (connect_acquired_log h s t Hp Hf)
      as (r & s' & l & t2 & Hc & Ht & _).
    rewrite Hc in *. cbn [snd] in *. now split.
Qed.

Lemma teardown_of_tab_and_port_witness :
  _port (snd (connect silent_host (new_TransportBrowserTab keeweb))) = None /\
  _tab (snd (connect silent_host (new_TransportBrowserTab keeweb))) =
  Some keeweb_tab.
Proof.
  apply (proj2 (teardown_of_tab_and_port silent_host (new_TransportBrowserTab keeweb))
           keeweb_tab eq_refl eq_refl).
  reflexivity.
Defined.

(** C7: [disconnect] without a port clears the tab, makes no call and
    emits nothing; with a port it closes the port, clears tab and port,
    and emits exactly one error; a second [disconnect] right after the
    first changes nothing and emits nothing. *)
Theorem disconnect_emits_at_most_once s :
  let s1 := snd (disconnect s) in
  fst (disconnect s) = Fulfilled tt /\
  (_port s = None ->
   _tab s1 = None /\ _port s1 = None /\ calls_since s s1 = []) /\
  (forall p, _port s = Some p ->
   _tab s1 = None /\ _port s1 = None /\
   calls_since s s1 =
     [ (now s, PortDisconnect p);
       (now s, Emit (Err (I18n "errorKeeWebDisconnected" None))) ] /\
   events_emitted (calls_since s s1) =
     [Err (I18n "errorKeeWebDisconnected" None)]) /\
  disconnect s1 = (Fulfilled tt, s1) /\
  events_emitted (calls_since s1 (snd (disconnect s1))) = [].
Proof.
  cbv zeta. rewrite (disconnect_run s). cbn [fst snd].
  split; [reflexivity|]. split; [|split].
  - intros Hp. rewrite Hp. repeat split; try assumption.
    apply calls_since_app. cbn. now rewrite app_nil_r.
  - intros p Hp. rewrite Hp.
    assert (Hcalls : calls_since s
              (assign_port None
                 (with_calls [PortDisconnect p;
                              Emit (Err (I18n "errorKeeWebDisconnected" None))]
                    (assign_tab None s))) =
            [ (now s, PortDisconnect p);
              (now s, Emit (Err (I18n "errorKeeWebDisconnected" None))) ])
      by now apply calls_since_app.
    rewrite Hcalls. now repeat split.
  - rewrite disconnect_run.
    destruct (_port s) as [p|] eqn:Hp; cbn [snd _port assign_port assign_tab].
    + split; [reflexivity|].
      unfold calls_since. now rewrite skipn_all.
    + rewrite Hp. split; [reflexivity|].
      unfold calls_since. now rewrite skipn_all.
Qed.

Lemma disconnect_emits_at_most_once_witness :
  _tab (snd (disconnect tab_acquired)) = None /\
  _port (snd (disconnect tab_acquired)) = None /\
  calls_since tab_acquired (snd (disconnect tab_acquired)) = [].
Proof.
  pose proof (disconnect_emits_at_most_once tab_acquired) as W.
  cbv zeta in W. destruct W as (_ & W & _). apply W. reflexivity.
Defined.

(** ** request *)

(** C8: [request] returns normally.  With a port it posts the message,
    unchanged, on that port and does nothing else; without a port it
    makes no call on any port and emits one error, "Port not connected". *)
Theorem request_forwards_or_reports s message :
  let s1 := snd (request message s) in
  fst (request message s) = Fulfilled tt /\
  _tab s1 = _tab s /\ _port s1 = _port s /\
  (forall p, _port s = Some p ->
   calls_since s s1 = [(now s, PostMessage p message)]) /\
  (_port s = None ->
   calls_since s s1 = [(now s, Emit (Err (Literal "Port not connected")))]).
Proof.
  cbv zeta. unfold request, bind, get.
  destruct (_port s) as [p|] eqn:Hp; unfold emit, call; cbn [fst snd].
  - repeat split; try assumption.
    + intros p' [= <-]. now apply calls_since_app.
    + discriminate.
  - repeat split; try assumption.
    + discriminate.
    + intros _. now apply calls_since_app.
Qed.

Lemma request_forwards_or_reports_witness :
  calls_since tab_acquired (snd (request (pong "get-logins") tab_acquired)) =
  [(0%N, Emit (Err (Literal "Port not connected")))].
Proof.
  pose proof (request_forwards_or_reports tab_acquired (pong "get-logins")) as W.
  cbv zeta in W. destruct W as (_ & _ & _ & _ & W). apply W. reflexivity.
Defined.

(** ** The disconnect listener *)

Lemma portDisconnected_run s :
  portDisconnected s =
  (Fulfilled tt,
   match _port s with
   | Some _ =>
       assign_tab None
         (with_calls [Emit (Err (I18n "errorKeeWebDisconnected" None))]
            (assign_port None s))
   | None => assign_tab None s
   end).
Proof.
  unfold portDisconnected, bind, get.
  destruct (_port s) as [p|]; reflexivity.
Qed.

Lemma portDisconnected_facts s :
  fst (portDisconnected s) = Fulfilled tt /\
  _tab (snd (portDisconnected s)) = None /\
  _port (snd (portDisconnected s)) = None /\
  events_emitted (calls_since s (snd (portDisconnected s))) =
    match _port s with
    | Some _ => [Err (I18n "errorKeeWebDisconnected" None)]
    | None => []
    end.
Proof.
  rewrite portDisconnected_run. cbn [fst snd].
  destruct (_port s) as [p|] eqn:Hp; repeat split; try assumption.
  - now erewrite calls_since_app by reflexivity.
  - unfold calls_since. now rewrite skipn_all.
Qed.

Lemma deliver_settled k s :
  _tab s = None -> _port s = None ->
  deliver k portDisconnected s = (Fulfilled tt, s).
Proof.
  intros Ht Hp. induction k as [|k IH]; [reflexivity|].
  cbn [deliver]. unfold bind. rewrite portDisconnected_run, Hp.
  replace (assign_tab None s) with s; [exact IH|].
  destruct s; cbn in *. now subst.
Qed.

(** C10: the disconnect listener is safe to run again.  Every run clears
    the tab; it emits the error only if a port was tracked, and clears
    it; so however often the disconnection is delivered, at most one
    error is emitted, and none after the first delivery. *)
Theorem portDisconnected_reentrant s :
  let s1 := snd (portDisconnected s) in
  fst (portDisconnected s) = Fulfilled tt /\
  _tab s1 = None /\ _port s1 = None /\
  events_emitted (calls_since s s1) =
    match _port s with
    | Some _ => [Err (I18n "errorKeeWebDisconnected" None)]
    | None => []
    end /\
  (forall k,
   deliver (S k) portDisconnected s = (Fulfilled tt, s1) /\
   (List.length (events_emitted
                   (calls_since s (snd (deliver (S k) portDisconnected s))))
    <= 1)%nat).
Proof.
  destruct (portDisconnected_facts s) as (Hr & Ht & Hp & Hev).
  cbv zeta. repeat split; try assumption.
  - cbn [deliver]. unfold bind.
    destruct (portDisconnected s) as [r s1]. cbn [fst snd] in *. subst r.
    now apply deliver_settled.
  - cbn [deliver]. unfold bind.
    destruct (portDisconnected s) as [r s1]. cbn [fst snd] in *. subst r.
    rewrite deliver_settled by assumption. cbn [snd]. rewrite Hev.
    destruct (_port s); cbn; lia.
Qed.

(** * Further properties of the transport *)

(** ** Induction over the attempts of a handshake *)

Lemma first_event_disconnect_early r after :
  first_event r = DisconnectFired after ->
  (after < _tabConnectionTimeoutMillis)%N.
Proof.
  destruct r as [|a|a m]; cbn; try discriminate.
  - destruct (N.ltb_spec a _tabConnectionTimeoutMillis); [|discriminate].
    now intros [= <-].
  - destruct (a <? _tabConnectionTimeoutMillis)%N; discriminate.
Qed.

Lemma first_event_message_early r after msg :
  first_event r = MessageFired after msg ->
  (after < _tabConnectionTimeoutMillis)%N.
Proof.
  destruct r as [|a|a m]; cbn; try discriminate.
  - destruct (a <? _tabConnectionTimeoutMillis)%N; discriminate.
  - destruct (N.ltb_spec a _tabConnectionTimeoutMillis); [|discriminate].
    now intros [= <- _].
Qed.

Section HandshakeInduction.

Variable h : Host.
Variable t : Tab.
Variable Q : Z -> State -> list (N * HostCall) -> option Port -> State -> Prop.

Hypothesis exhausted :
  forall n s, n <= 0 -> _tab s = Some t -> Q n s [] None s.

Hypothesis timed_out :
  forall n s l r s',
    n > 0 -> _tab s = Some t ->
    first_event (reaction h (attempt_port h s t)) = TimeoutFired ->
    trace s' = trace (timeout_state s (attempt_port h s t)) ++ l ->
    Q (n - 1) (timeout_state s (attempt_port h s t)) l r s' ->
    Q n s (timeout_calls s (attempt_port h s t) ++ l) r s'.

Hypothesis far_end_closed :
  forall n s after l r s',
    n > 0 -> _tab s = Some t ->
    first_event (reaction h (attempt_port h s t)) = DisconnectFired after ->
    (after < _tabConnectionTimeoutMillis)%N ->
    trace s' = trace (backoff_state s (attempt_port h s t) after) ++ l ->
    Q (n - 1) (backoff_state s (attempt_port h s t) after) l r s' ->
    Q n s (backoff_calls s (attempt_port h s t) after ++ l) r s'.

Hypothesis accepted :
  forall n s after msg,
    n > 0 -> _tab s = Some t ->
    first_event (reaction h (attempt_port h s t)) = MessageFired after msg ->
    (after < _tabConnectionTimeoutMillis)%N ->
    data msg = JsString (attempt_name h s) ->
    Q n s (accepted_calls s (attempt_port h s t) after)
      (Some (attempt_port h s t))
      (accepted_state s (attempt_port h s t) after).

Hypothesis repudiated :
  forall n s after msg,
    n > 0 -> _tab s = Some t ->
    first_event (reaction h (attempt_port h s t)) = MessageFired after msg ->
    (after < _tabConnectionTimeoutMillis)%N ->
    data msg <> JsString (attempt_name h s) ->
    Q n s (repudiated_calls s (attempt_port h s t) after) None
      (repudiated_state s (attempt_port h s t) after).

Lemma handshake_attempts_ind n s :
  _tab s = Some t ->
  exists r s' l,
    connectToTab h n s = (Fulfilled r, s') /\
    trace s' = trace s ++ l /\ Q n s l r s'.
Proof.
  remember (Z.to_nat n) as k eqn:Hk. revert n s Hk.
  induction k as [|k IH]; intros n s Hk Ht.
  - exists None, s, []. rewrite connectToTab_exhausted by lia.
    split; [reflexivity|]. split; [now rewrite app_nil_r|].
    apply exhausted; [lia|assumption].
  - assert (Hn : n > 0) by lia.
    destruct (first_event (reaction h (attempt_port h s t)))
      as [|after|after msg] eqn:Hev.
    + destruct (IH (n - 1) (timeout_state s (attempt_port h s t)))
        as (r & s' & l & Hrun & Htr & HQ); [lia|exact Ht|].
      exists r, s', (timeout_calls s (attempt_port h s t) ++ l).
      rewrite (connectToTab_timeout h n s t Hn Ht Hev).
      unfold then_resolve. rewrite Hrun.
      split; [reflexivity|]. split.
      * rewrite Htr. cbn. now rewrite <- app_assoc.
      * now apply timed_out.
    + pose proof (first_event_disconnect_early _ _ Hev) as Hearly.
      destruct (IH (n - 1) (backoff_state s (attempt_port h s t) after))
        as (r & s' & l & Hrun & Htr & HQ); [lia|exact Ht|].
      exists r, s', (backoff_calls s (attempt_port h s t) after ++ l).
      rewrite (connectToTab_disconnect h n s t after Hn Ht Hev).
      unfold then_resolve. rewrite Hrun.
      split; [reflexivity|]. split.
      * rewrite Htr. cbn. now rewrite <- app_assoc.
      * now apply far_end_closed.
    + pose proof (first_event_message_early _ _ _ Hev) as Hearly.
      rewrite (connectToTab_message h n s t after msg Hn Ht Hev).
      destruct (strict_eq_string (data msg) (attempt_name h s)) eqn:E.
      * apply strict_eq_string_spec in E.
        exists (Some (attempt_port h s t)),
          (accepted_state s (attempt_port h s t) after),
          (accepted_calls s (attempt_port h s t) after).
        split; [reflexivity|]. split; [reflexivity|].
        now apply (accepted n s after msg).
      * assert (Hne : data msg <> JsString (attempt_name h s)).
        { intros Heq. apply strict_eq_string_spec in Heq. congruence. }
        exists None, (repudiated_state s (attempt_port h s t) after),
          (repudiated_calls s (attempt_port h s t) after).
        split; [reflexivity|]. split; [reflexivity|].
        now apply (repudiated n s after msg).
Qed.

End HandshakeInduction.

Lemma count_calls_app f l l' :
  count_calls f (l ++ l') = (count_calls f l + count_calls f l')%nat.
Proof. unfold count_calls. now rewrite filter_app, length_app. Qed.

Lemma connections_app l l' :
  connections (l ++ l') = connections l ++ connections l'.
Proof.
  induction l as [|[t c] l IH]; [reflexivity|].
  destruct c; cbn; try assumption. now rewrite IH.
Qed.

Lemma ports_opened_connections l :
  ports_opened l = List.length (connections l).
Proof.
  induction l as [|[t c] l IH]; [reflexivity|].
  unfold ports_opened in *. destruct c; cbn; try assumption.
  now rewrite IH.
Qed.

(** ** What a handshake does with names, listeners, timers and ports *)

Lemma connectToTab_draws h n s t :
  _tab s = Some t ->
  connections (calls_since s (snd (connectToTab h n s))) =
    map (fun k => (tab_id t, drawn_name h k))
      (seq (drawn s)
         (ports_opened (calls_since s (snd (connectToTab h n s))))) /\
  drawn (snd (connectToTab h n s)) =
    (drawn s + ports_opened (calls_since s (snd (connectToTab h n s))))%nat /\
  opened (snd (connectToTab h n s)) =
    (opened s + ports_opened (calls_since s (snd (connectToTab h n s))))%nat.
Proof.
  intros Ht.
  destruct (handshake_attempts_ind h t
              (fun _ s l _ s' =>
                 connections l =
                   map (fun k => (tab_id t, drawn_name h k))
                     (seq (drawn s) (ports_opened l)) /\
                 drawn s' = (drawn s + ports_opened l)%nat /\
                 opened s' = (opened s + ports_opened l)%nat))
    with (n := n) (s := s) as (r & s' & l & Hrun & Htr & HQ);
    try exact Ht.
  - intros; cbn; repeat split; lia.
  - intros n0 s0 l r s' _ _ _ _ (Hc & Hd & Ho).
    rewrite connections_app, ports_opened_app, Hc, Hd, Ho.
    cbn. repeat split; lia.
  - intros n0 s0 after l r s' _ _ _ _ _ (Hc & Hd & Ho).
    rewrite connections_app, ports_opened_app, Hc, Hd, Ho.
    cbn. repeat split; lia.
  - intros; cbn; repeat split; lia.
  - intros; cbn; repeat split; lia.
  - rewrite Hrun. cbn [snd]. now rewrite (calls_since_app _ _ l Htr).
Qed.

(** X1: the ports of a handshake are opened to the tracked tab, the
    [k]-th of them under the name made of the [k]-th draw of the random
    source since the start; the handshake draws one name per port. *)
Theorem handshake_names_follow_draws h n s t :
  _tab s = Some t ->
  let l := calls_since s (snd (connectToTab h n s)) in
  connections l =
    map (fun k => (tab_id t, drawn_name h k)) (seq (drawn s) (ports_opened l)) /\
  drawn (snd (connectToTab h n s)) = (drawn s + ports_opened l)%nat.
Proof.
  intros Ht l. subst l.
  destruct (connectToTab_draws h n s t Ht) as (Hc & Hd & _).
  split; assumption.
Qed.

Lemma handshake_names_follow_draws_witness :
  connections (calls_since tab_acquired (snd (connectToTab late_host 10 tab_acquired)))
  = [(7, "keeweb-connect-AAAA"); (7, "keeweb-connect-BBBB")].
Proof.
  pose proof (handshake_names_follow_draws late_host 10 tab_acquired keeweb_tab
                eq_refl) as W.
  cbv zeta in W. destruct W as (W & _). rewrite W. reflexivity.
Defined.

(** X2: when a handshake resolves, every response timer it set has been
    cleared and every listener it added has been removed: per port opened,
    one timer set and cleared, one ping posted, two listeners added and
    two removed. *)
Theorem handshake_leaves_no_listener h n s t :
  _tab s = Some t ->
  let l := calls_since s (snd (connectToTab h n s)) in
  count_calls is_response_timer l = ports_opened l /\
  count_calls is_clear_timer l = ports_opened l /\
  count_calls is_post l = ports_opened l /\
  count_calls is_add_listener l = (2 * ports_opened l)%nat /\
  count_calls is_remove_listener l = (2 * ports_opened l)%nat.
Proof.
  intros Ht.
  destruct (handshake_attempts_ind h t
              (fun _ _ l _ _ =>
                 count_calls is_response_timer l = ports_opened l /\
                 count_calls is_clear_timer l = ports_opened l /\
                 count_calls is_post l = ports_opened l /\
                 count_calls is_add_listener l = (2 * ports_opened l)%nat /\
                 count_calls is_remove_listener l = (2 * ports_opened l)%nat))
    with (n := n) (s := s) as (r & s' & l & Hrun & Htr & HQ);
    try exact Ht.
  - intros; cbn; repeat split; lia.
  - intros n0 s0 l r s' _ _ _ _ (H1 & H2 & H3 & H4 & H5).
    rewrite !count_calls_app, ports_opened_app, H1, H2, H3, H4, H5.
    cbn. repeat split; lia.
  - intros n0 s0 after l r s' _ _ _ _ _ (H1 & H2 & H3 & H4 & H5).
    rewrite !count_calls_app, ports_opened_app, H1, H2, H3, H4, H5.
    cbn. repeat split; lia.
  - intros; cbn; repeat split; lia.
  - intros; cbn; repeat split; lia.
  - cbv zeta. rewrite Hrun. cbn [snd]. now rewrite (calls_since_app _ _ l Htr).
Qed.

Lemma handshake_leaves_no_listener_witness :
  count_calls is_add_listener
    (calls_since tab_acquired (snd (connectToTab silent_host 10 tab_acquired)))
  = 20%nat /\
  count_calls is_remove_listener
    (calls_since tab_acquired (snd (connectToTab silent_host 10 tab_acquired)))
  = 20%nat.
Proof.
  pose proof (handshake_leaves_no_listener silent_host 10 tab_acquired keeweb_tab
                eq_refl) as W.
  cbv zeta in W. destruct W as (_ & _ & _ & Wa & Wr).
  rewrite Wa, Wr. split; reflexivity.
Defined.

Lemma handshake_accounts_for_ports_aux h n s t :
  _tab s = Some t ->
  exists r,
    fst (connectToTab h n s) = Fulfilled r /\
    ports_opened (calls_since s (snd (connectToTab h n s))) =
    (count_calls is_port_disconnect (calls_since s (snd (connectToTab h n s))) +
     count_calls is_retry_timer (calls_since s (snd (connectToTab h n s))) +
     ports_kept r)%nat.
Proof.
  intros Ht.
  destruct (handshake_attempts_ind h t
              (fun _ _ l r _ =>
                 ports_opened l =
                 (count_calls is_port_disconnect l +
                  count_calls is_retry_timer l + ports_kept r)%nat))
    with (n := n) (s := s) as (r & s' & l & Hrun & Htr & HQ);
    try exact Ht.
  - intros; reflexivity.
  - intros n0 s0 l r s' _ _ _ _ IH.
    rewrite !count_calls_app, ports_opened_app, IH. cbn. lia.
  - intros n0 s0 after l r s' _ _ _ _ _ IH.
    rewrite !count_calls_app, ports_opened_app, IH. cbn. lia.
  - intros; reflexivity.
  - intros; reflexivity.
  - exists r. rewrite Hrun. cbn [fst snd].
    now rewrite (calls_since_app _ _ l Htr).
Qed.

(** X3: every port a handshake opened is accounted for when it resolves:
    it was closed by the transport (after a timeout or a wrong pong), or
    the far end had closed it (and the retry timer was set), or it is
    the one port the handshake resolves with. *)
Theorem handshake_accounts_for_ports h n s t :
  _tab s = Some t ->
  exists r,
    fst (connectToTab h n s) = Fulfilled r /\
    ports_opened (calls_since s (snd (connectToTab h n s))) =
    (count_calls is_port_disconnect (calls_since s (snd (connectToTab h n s))) +
     count_calls is_retry_timer (calls_since s (snd (connectToTab h n s))) +
     ports_kept r)%nat.
Proof.
  intros Ht.
  destruct (handshake_accounts_for_ports_aux h n s t Ht) as (r & Hr & Hacc).
  exists r. split; assumption.
Qed.

Lemma handshake_accounts_for_ports_witness :
  exists r,
    fst (connectToTab late_host 10 tab_acquired) = Fulfilled r /\
    ports_opened (calls_since tab_acquired (snd (connectToTab late_host 10 tab_acquired))) =
    (count_calls is_port_disconnect
       (calls_since tab_acquired (snd (connectToTab late_host 10 tab_acquired))) +
     count_calls is_retry_timer
       (calls_since tab_acquired (snd (connectToTab late_host 10 tab_acquired))) +
     ports_kept r)%nat.
Proof.
  apply (handshake_accounts_for_ports late_host 10 tab_acquired keeweb_tab).
  reflexivity.
Defined.



Lemma NoDup_map_injective {A B} (f : A -> B) (l : list A) :
  (forall x y, f x = f y -> x = y) -> NoDup l -> NoDup (map f l).
Proof.
  intros Hinj Hl. induction Hl as [|x l Hx Hl IH]; cbn; constructor.
  - intros Hin. apply in_map_iff in Hin. destruct Hin as (y & E & Hy).
    apply Hinj in E. now subst y.
  - exact IH.
Qed.

Lemma drawn_name_inj h :
  (forall i j, randomBase64 h i 32 = randomBase64 h j 32 -> i = j) ->
  forall i j, drawn_name h i = drawn_name h j -> i = j.
Proof.
  intros Hinj i j E. apply Hinj. unfold drawn_name in E. cbn in E.
  now injection E.
Qed.

Lemma unary_inj i j : unary i = unary j -> i = j.
Proof.
  revert j. induction i as [|i IH]; intros [|j] E; try discriminate.
  - reflexivity.
  - cbn in E. injection E as E. now rewrite (IH j E).
Qed.

(** X5: if the random source never repeats itself, no two ports of a
    handshake are opened under the same name. *)
Theorem handshake_names_distinct h n s t :
  _tab s = Some t ->
  (forall i j, randomBase64 h i 32 = randomBase64 h j 32 -> i = j) ->
  NoDup (map snd (connections (calls_since s (snd (connectToTab h n s))))).
Proof.
  intros Ht Hinj.
  destruct (connectToTab_draws h n s t Ht) as (Hc & _).
  rewrite Hc, map_map. cbn [snd].
  apply NoDup_map_injective.
  - intros i j. now apply drawn_name_inj.
  - apply seq_NoDup.
Qed.

Lemma handshake_names_distinct_witness :
  NoDup (map snd (connections
                    (calls_since tab_acquired
                       (snd (connectToTab fresh_host 10 tab_acquired))))).
Proof.
  apply (handshake_names_distinct fresh_host 10 tab_acquired keeweb_tab eq_refl).
  intros i j E. now apply unary_inj.
Defined.

Lemma connectToTab_result_port h n s t :
  _tab s = Some t ->
  exists r s' l,
    connectToTab h n s = (Fulfilled r, s') /\
    trace s' = trace s ++ l /\
    (opened s <= opened s')%nat /\
    forall p, r = Some p ->
      port_tab p = tab_id t /\
      S (port_serial p) = opened s' /\
      (opened s <= port_serial p)%nat /\
      port_name p = drawn_name h (pred (drawn s')) /\
      Forall (fun c => snd c <> PortDisconnect p) l.
Proof.
  intros Ht.
  apply (handshake_attempts_ind h t
           (fun _ s l r s' =>
              (opened s <= opened s')%nat /\
              forall p, r = Some p ->
                port_tab p = tab_id t /\
                S (port_serial p) = opened s' /\
                (opened s <= port_serial p)%nat /\
                port_name p = drawn_name h (pred (drawn s')) /\
                Forall (fun c => snd c <> PortDisconnect p) l));
    try exact Ht.
  - intros; split; [lia|discriminate].
  - intros n0 s0 l r s' _ _ _ _ (Ho & IH). cbn in Ho. split; [lia|].
    intros p Hr. destruct (IH p Hr) as (H1 & H2 & H3 & H4 & H5). cbn in H3.
    repeat split; try assumption; try lia.
    apply Forall_app. split; [|exact H5].
    repeat constructor; cbn; try discriminate.
    intros [= E]. subst p. cbn in H3. lia.
  - intros n0 s0 after l r s' _ _ _ _ _ (Ho & IH). cbn in Ho. split; [lia|].
    intros p Hr. destruct (IH p Hr) as (H1 & H2 & H3 & H4 & H5). cbn in H3.
    repeat split; try assumption; try lia.
    apply Forall_app. split; [|exact H5].
    repeat constructor; cbn; discriminate.
  - intros n0 s0 after msg _ _ _ _ _. cbn. split; [lia|].
    intros p [= <-]. cbn. repeat split; try lia.
    repeat constructor; cbn; discriminate.
  - intros; split; [cbn; lia|discriminate].
Qed.

(** X6: the port a handshake resolves with is the last port it opened: it
    leads to the tracked tab, bears the name of the last draw, and the
    transport has never closed it. *)
Theorem handshake_returns_last_port h n s t p :
  _tab s = Some t ->
  fst (connectToTab h n s) = Fulfilled (Some p) ->
  port_tab p = tab_id t /\
  S (port_serial p) = opened (snd (connectToTab h n s)) /\
  port_name p = drawn_name h (pred (drawn (snd (connectToTab h n s)))) /\
  Forall (fun c => snd c <> PortDisconnect p)
    (calls_since s (snd (connectToTab h n s))).
Proof.
  intros Ht Hp.
  destruct (connectToTab_result_port h n s t Ht)
    as (r & s' & l & Hrun & Htr & _ & Hr).
  rewrite Hrun in *. cbn [fst snd] in *. injection Hp as ->.
  destruct (Hr p eq_refl) as (H1 & H2 & _ & H4 & H5).
  rewrite (calls_since_app _ _ l Htr). now repeat split.
Qed.

Lemma handshake_returns_last_port_witness :
  port_tab {| port_name := "keeweb-connect-BBBB"; port_tab := 7; port_serial := 1 |}
  = tab_id keeweb_tab /\
  2%nat = opened (snd (connectToTab late_host 10 tab_acquired)).
Proof.
  pose proof (handshake_returns_last_port late_host 10 tab_acquired keeweb_tab
                {| port_name := "keeweb-connect-BBBB"; port_tab := 7;
                   port_serial := 1 |} eq_refl eq_refl) as W.
  destruct W as (W1 & W2 & _). split; assumption.
Defined.

(** X7: the page attaches its listener late.  If the first port times
    out and the second one answers with its own name, the handshake
    resolves with the second port after exactly two ports: the first was
    closed by the transport, the second is kept. *)
Theorem retry_after_timeout_succeeds h n s t after msg :
  n > 1 -> _tab s = Some t ->
  let p1 := attempt_port h s t in
  let s1 := timeout_state s p1 in
  let p2 := attempt_port h s1 t in
  first_event (reaction h p1) = TimeoutFired ->
  first_event (reaction h p2) = MessageFired after msg ->
  data msg = JsString (port_name p2) ->
  fst (connectToTab h n s) = Fulfilled (Some p2) /\
  calls_since s (snd (connectToTab h n s)) =
    timeout_calls s p1 ++ accepted_calls s1 p2 after /\
  ports_opened (calls_since s (snd (connectToTab h n s))) = 2%nat /\
  port_serial p2 = S (port_serial p1) /\
  count_calls is_port_disconnect (calls_since s (snd (connectToTab h n s))) = 1%nat.
Proof.
  intros Hn Ht p1 s1 p2 Hev1 Hev2 Hdata.
  assert (Hrun : connectToTab h n s =
                 (Fulfilled (Some p2), accepted_state s1 p2 after)).
  { rewrite (connectToTab_timeout h n s t ltac:(lia) Ht Hev1). fold p1 s1.
    unfold then_resolve.
    rewrite (connectToTab_message h (n - 1) s1 t after msg ltac:(lia) Ht Hev2).
    fold p2. replace (strict_eq_string (data msg) (attempt_name h s1)) with true;
      [reflexivity|].
    symmetry. now apply strict_eq_string_spec. }
  rewrite Hrun. cbn [fst snd].
  assert (Hcalls : calls_since s (accepted_state s1 p2 after) =
                   timeout_calls s p1 ++ accepted_calls s1 p2 after).
  { apply calls_since_app. cbn. now rewrite <- app_assoc. }
  rewrite Hcalls. now repeat split.
Qed.

Lemma retry_after_timeout_succeeds_witness :
  fst (connectToTab late_host 10 tab_acquired) =
  Fulfilled (Some {| port_name := "keeweb-connect-BBBB"; port_tab := 7;
                     port_serial := 1 |}) /\
  ports_opened (calls_since tab_acquired
                  (snd (connectToTab late_host 10 tab_acquired))) = 2%nat.
Proof.
  pose proof (retry_after_timeout_succeeds late_host 10 tab_acquired keeweb_tab
                20 (pong "keeweb-connect-BBBB")
                eq_refl eq_refl eq_refl eq_refl eq_refl) as W.
  destruct W as (W1 & _ & W2 & _). split; [exact W1|exact W2].
Defined.

Lemma connectToTab_quiet_tabs h n s :
  exists l,
    trace (snd (connectToTab h n s)) = trace s ++ l /\
    count_calls is_tabs_query l = 0%nat /\ count_calls is_tabs_create l = 0%nat.
Proof.
  destruct (_tab s) as [t|] eqn:Ht.
  - destruct (handshake_attempts_ind h t
                (fun _ _ l _ _ =>
                   count_calls is_tabs_query l = 0%nat /\
                   count_calls is_tabs_create l = 0%nat))
      with (n := n) (s := s) as (r & s' & l & Hrun & Htr & HQ);
      try exact Ht.
    + intros; split; reflexivity.
    + intros n0 s0 l r s' _ _ _ _ (H1 & H2).
      rewrite !count_calls_app, H1, H2. split; reflexivity.
    + intros n0 s0 after l r s' _ _ _ _ _ (H1 & H2).
      rewrite !count_calls_app, H1, H2. split; reflexivity.
    + intros; split; reflexivity.
    + intros; split; reflexivity.
    + exists l. rewrite Hrun. cbn [snd]. now split.
  - exists []. destruct (Z_le_gt_dec n 0) as [Hle|Hgt].
    + rewrite connectToTab_exhausted by assumption. cbn.
      rewrite app_nil_r. now repeat split.
    + rewrite connectToTab_no_tab by assumption. cbn.
      rewrite app_nil_r. now repeat split.
Qed.

(** X8: the handshake keeps to its ports.  It emits no event to the
    owner, does not move the focus, queries and creates no tab, and
    leaves the tab and the port of the transport as they were: the port
    it resolves with is stored by [connect] only. *)
Theorem handshake_keeps_to_its_ports h n s :
  let s' := snd (connectToTab h n s) in
  let l := calls_since s s' in
  _tab s' = _tab s /\ _port s' = _port s /\ _keeWebUrl s' = _keeWebUrl s /\
  events_emitted l = [] /\ tabs_activated l = [] /\
  count_calls is_tabs_query l = 0%nat /\ count_calls is_tabs_create l = 0%nat.
Proof.
  cbv zeta.
  destruct (connectToTab_log h n s) as [l (Htr & Hu & Ht & Hp & _ & He & Ha)].
  rewrite (calls_since_app _ _ l Htr).
  destruct (connectToTab_quiet_tabs h n s) as [l' (Htr' & Hq & Hc)].
  rewrite Htr in Htr'. apply app_inv_head in Htr'. subst l'.
  now repeat split.
Qed.

(** ** The paths of connect, call by call *)

Lemma connect_log_split h s t :
  permission_granted h (_keeWebUrl s) = true ->
  found_tab h (_keeWebUrl s) = Some t ->
  exists r s2,
    connectToTab h _maxTabConnectionRetries
      (assign_tab (Some t) (with_calls (acquisition_calls h (_keeWebUrl s)) s))
    = (Fulfilled r, s2) /\
    connect h s =
      (Fulfilled tt, with_calls (closing_calls h t r) (assign_port r s2)) /\
    calls_since s (snd (connect h s)) =
      stamp (now s) (acquisition_calls h (_keeWebUrl s)) ++
      calls_since
        (assign_tab (Some t) (with_calls (acquisition_calls h (_keeWebUrl s)) s))
        s2 ++
      stamp (now s2) (closing_calls h t r).
Proof.
  intros Hp Hf.
  destruct (connect_handshake h s t Hp Hf)
    as (r & s2 & l & Hrun & (Htr & _) & Hc).
  exists r, s2. split; [exact Hrun|]. split; [exact Hc|].
  rewrite Hc. cbn [snd]. rewrite (calls_since_app _ _ l Htr).
  apply calls_since_app. cbn. rewrite Htr. cbn. now rewrite <- !app_assoc.
Qed.

Lemma handshake_log_facts h n s :
  _tab (snd (connectToTab h n s)) = _tab s /\
  count_calls is_tabs_query (calls_since s (snd (connectToTab h n s))) = 0%nat /\
  count_calls is_tabs_create (calls_since s (snd (connectToTab h n s))) = 0%nat.
Proof.
  destruct (connectToTab_log h n s) as [l (Htr & _ & Ht & _)].
  destruct (connectToTab_quiet_tabs h n s) as [l' (Htr' & Hq & Hc)].
  rewrite (calls_since_app _ _ l' Htr'). now repeat split.
Qed.

(** X9: without the permission [connect] stops at once: it asks for the
    permission, emits the error and does nothing else; no tab is looked
    up, queried or created, no port is opened, no field changes. *)
Theorem connect_denied_stops_at_permission h s :
  permission_granted h (_keeWebUrl s) = false ->
  let s' := snd (connect h s) in
  calls_since s s' =
    [ (now s, PermissionsContains (_keeWebUrl s));
      (now s, Emit (Err (I18n "errorBrowserTabNoPermissions"
                           (Some (_keeWebUrl s))))) ] /\
  _tab s' = _tab s /\ _port s' = _port s /\
  drawn s' = drawn s /\ opened s' = opened s /\ now s' = now s.
Proof.
  intros Hp. cbv zeta. rewrite (connect_denied h s Hp). cbn [snd].
  rewrite calls_since_with_calls. now repeat split.
Qed.

Lemma connect_denied_stops_at_permission_witness :
  calls_since connected (snd (connect denying_host connected)) =
  [ (0%N, PermissionsContains keeweb);
    (0%N, Emit (Err (I18n "errorBrowserTabNoPermissions" (Some keeweb)))) ] /\
  _port (snd (connect denying_host connected)) = _port connected.
Proof.
  pose proof (connect_denied_stops_at_permission denying_host connected eq_refl)
    as W.
  cbv zeta in W. destruct W as (W1 & _ & W2 & _). split; assumption.
Defined.

(** X10: with the permission, [connect] queries the tabs once and tracks
    the tab that [findOrCreateTab] yields: the first match if there is
    one, and then no tab is created; otherwise the tab created, active,
    for the URL, in one call.  Every port it opens leads to that tab. *)
Theorem connect_reuses_or_creates_tab h s :
  permission_granted h (_keeWebUrl s) = true ->
  let s' := snd (connect h s) in
  let l := calls_since s s' in
  _tab s' =
    match tabs_matching h (_keeWebUrl s) with
    | tab :: _ => Some tab
    | [] => created_tab h (_keeWebUrl s)
    end /\
  count_calls is_tabs_query l = 1%nat /\
  count_calls is_tabs_create l =
    match tabs_matching h (_keeWebUrl s) with
    | _ :: _ => 0%nat
    | [] => 1%nat
    end /\
  (tabs_matching h (_keeWebUrl s) = [] ->
   In (now s, TabsCreate (_keeWebUrl s) true) l) /\
  (forall t, _tab s' = Some t ->
   Forall (fun c => fst c = tab_id t) (connections l)).
Proof.
  intros Hp. cbv zeta.
  destruct (found_tab h (_keeWebUrl s)) as [t|] eqn:Hf.
  - destruct (connect_log_split h s t Hp Hf) as (r & s2 & Hrun & Hc & Hcalls).
    rewrite Hcalls. rewrite Hc. cbn [snd].
    set (s1 := assign_tab (Some t)
                 (with_calls (acquisition_calls h (_keeWebUrl s)) s)) in *.
    pose proof (handshake_log_facts h _maxTabConnectionRetries s1) as Hlog.
    rewrite Hrun in Hlog. cbn [snd] in Hlog.
    destruct Hlog as (Ht2 & Hq & Hcr).
    pose proof (connectToTab_draws h _maxTabConnectionRetries s1 t eq_refl)
      as (Hconn & _).
    rewrite Hrun in Hconn. cbn [snd] in Hconn.
    assert (Htab : _tab (with_calls (closing_calls h t r) (assign_port r s2))
                   = Some t) by (cbn; rewrite Ht2; reflexivity).
    rewrite Htab, !count_calls_app, Hq, Hcr, !connections_app, Hconn.
    unfold found_tab in Hf. unfold acquisition_calls.
    split; [|split; [|split; [|split]]].
    + destruct (tabs_matching h (_keeWebUrl s)); congruence.
    + destruct (tabs_matching h (_keeWebUrl s)); destruct r; unfold closing_calls,
        focus_calls; destruct (active_tab h) as [a|];
        try destruct (tab_id t =? tab_id a); reflexivity.
    + destruct (tabs_matching h (_keeWebUrl s)); destruct r; unfold closing_calls,
        focus_calls; destruct (active_tab h) as [a|];
        try destruct (tab_id t =? tab_id a); reflexivity.
    + intros ->. apply in_or_app. left. cbn. tauto.
    + intros t' [= <-].
      assert (Hacq : forall x, connections (stamp x (acquisition_calls h (_keeWebUrl s))) = []).
      { intros x. unfold acquisition_calls.
        now destruct (tabs_matching h (_keeWebUrl s)). }
      assert (Hclo : forall x, connections (stamp x (closing_calls h t r)) = []).
      { intros x. destruct r; unfold closing_calls, focus_calls;
          destruct (active_tab h) as [a|];
          try destruct (tab_id t =? tab_id a); reflexivity. }
      fold (acquisition_calls h (_keeWebUrl s)).
      rewrite Hacq, Hclo, app_nil_r. cbn [app].
      apply Forall_forall. intros c Hin. apply in_map_iff in Hin.
      destruct Hin as (k & <- & _). reflexivity.
  - rewrite (connect_no_tab h s Hp Hf). cbn [snd].
    rewrite calls_since_assign_tab. unfold found_tab in Hf.
    unfold acquisition_calls.
    destruct (tabs_matching h (_keeWebUrl s)) as [|t0 ts]; [|discriminate].
    cbn. rewrite Hf. repeat split; try tauto. discriminate.
Qed.

Lemma connect_reuses_or_creates_tab_witness :
  _tab (snd (connect echo_host (new_TransportBrowserTab keeweb))) = Some keeweb_tab /\
  count_calls is_tabs_create
    (calls_since (new_TransportBrowserTab keeweb)
       (snd (connect echo_host (new_TransportBrowserTab keeweb)))) = 0%nat.
Proof.
  pose proof (connect_reuses_or_creates_tab echo_host
                (new_TransportBrowserTab keeweb) eq_refl) as W.
  cbv zeta in W. destruct W as (W1 & _ & W2 & _). split; assumption.
Defined.

(** X11: when no tab matches and none can be created, [connect] makes
    five calls (permission, active tab, query, creation, error) and
    stops: no port is opened and the focus is not restored.  The tab is
    cleared and the port is left as it was, so a port tracked before
    the call is then tracked without a tab. *)
Theorem connect_without_tab_gives_up h s :
  permission_granted h (_keeWebUrl s) = true ->
  found_tab h (_keeWebUrl s) = None ->
  let s' := snd (connect h s) in
  calls_since s s' =
    [ (now s, PermissionsContains (_keeWebUrl s));
      (now s, GetActiveTab);
      (now s, TabsQuery (_keeWebUrl s));
      (now s, TabsCreate (_keeWebUrl s) true);
      (now s, Emit (Err (I18n "errorBrowserCannotCreateTab" None))) ] /\
  _tab s' = None /\ _port s' = _port s /\
  (_port s <> None -> ~ port_has_tab s').
Proof.
  intros Hp Hf. cbv zeta. rewrite (connect_no_tab h s Hp Hf). cbn [snd].
  rewrite calls_since_assign_tab. unfold found_tab in Hf.
  unfold acquisition_calls.
  destruct (tabs_matching h (_keeWebUrl s)) as [|t0 ts]; [|discriminate].
  repeat split. intros Hport Hinv. now apply Hinv.
Qed.

Lemma connect_without_tab_gives_up_witness :
  _tab (snd (connect tabless_host connected)) = None /\
  _port (snd (connect tabless_host connected)) = _port connected /\
  ~ port_has_tab (snd (connect tabless_host connected)).
Proof.
  pose proof (connect_without_tab_gives_up tabless_host connected
                eq_refl eq_refl) as W.
  cbv zeta in W. destruct W as (_ & W1 & W2 & W3).
  split; [exact W1|]. split; [exact W2|]. apply W3. discriminate.
Defined.





(** X13: if the tab never answers (every attempt ends by timeout or by
    disconnection), [connect] opens exactly 10 ports, all of them closed
    by one side or the other, tracks no port, and emits the one error
    "errorBrowserCannotConnectToTab". *)
Theorem connect_exhausts_budget h s t :
  permission_granted h (_keeWebUrl s) = true ->
  found_tab h (_keeWebUrl s) = Some t ->
  (forall p after msg, first_event (reaction h p) <> MessageFired after msg) ->
  let s' := snd (connect h s) in
  let l := calls_since s s' in
  ports_opened l = 10%nat /\
  (count_calls is_port_disconnect l + count_calls is_retry_timer l = 10)%nat /\
  _port s' = None /\ _tab s' = Some t /\
  events_emitted l = [Err (I18n "errorBrowserCannotConnectToTab" None)].
Proof.
  intros Hp Hf Hquiet. cbv zeta.
  destruct (connect_log_split h s t Hp Hf) as (r & s2 & Hrun & Hc & Hcalls).
  set (s1 := assign_tab (Some t)
               (with_calls (acquisition_calls h (_keeWebUrl s)) s)) in *.
  destruct (connectToTab_exhausts h _maxTabConnectionRetries s1 t
              ltac:(discriminate) eq_refl Hquiet) as (Hnone & Hports).
  rewrite Hrun in Hnone, Hports. cbn [fst snd] in Hnone, Hports.
  injection Hnone as ->.
  destruct (handshake_accounts_for_ports_aux h _maxTabConnectionRetries s1 t eq_refl)
    as (r' & Hr' & Hacc).
  rewrite Hrun in Hr', Hacc. cbn [fst snd] in Hr', Hacc. injection Hr' as <-.
  destruct (connectToTab_log h _maxTabConnectionRetries s1)
    as [l (Htr & _ & Ht & _ & _ & He & _)].
  rewrite Hrun in Htr, Ht. cbn [snd] in Htr, Ht.
  rewrite Hcalls, Hc. cbn [snd].
  rewrite !ports_opened_app, !count_calls_app, !events_emitted_app.
  rewrite Hports, closing_ports, closing_events.
  rewrite (proj1 (acquisition_quiet h _ _)),
    (proj1 (proj2 (acquisition_quiet h _ _))).
  rewrite (calls_since_app _ _ l Htr) in *. rewrite He.
  assert (Hacq : forall f, (f = is_port_disconnect \/ f = is_retry_timer) ->
                 count_calls f (stamp (now s) (acquisition_calls h (_keeWebUrl s)))
                 = 0%nat).
  { intros f [-> | ->]; unfold acquisition_calls;
      now destruct (tabs_matching h (_keeWebUrl s)). }
  assert (Hclo : forall f, (f = is_port_disconnect \/ f = is_retry_timer) ->
                 count_calls f (stamp (now s2) (closing_calls h t None)) = 0%nat).
  { intros f [-> | ->]; unfold closing_calls, focus_calls;
      destruct (active_tab h) as [a|]; try destruct (tab_id t =? tab_id a);
      reflexivity. }
  rewrite !Hacq, !Hclo by tauto.
  change (Z.to_nat _maxTabConnectionRetries) with 10%nat in *.
  cbn [ports_kept] in Hacc.
  repeat split; try reflexivity; try lia.
  cbn. rewrite Ht. reflexivity.
Qed.

Lemma connect_exhausts_budget_witness :
  ports_opened
    (calls_since (new_TransportBrowserTab keeweb)
       (snd (connect silent_host (new_TransportBrowserTab keeweb)))) = 10%nat.
Proof.
  pose proof (connect_exhausts_budget silent_host (new_TransportBrowserTab keeweb)
                keeweb_tab eq_refl eq_refl) as W.
  cbv zeta in W. destruct W as (W & _); [|exact W].
  intros p after msg E. discriminate E.
Defined.

(** ** Sequences of calls *)

Lemma connect_extends h s :
  trace (snd (connect h s)) = trace s ++ calls_since s (snd (connect h s)).
Proof.
  assert (Hgen : forall s' l, trace s' = trace s ++ l ->
                              trace s' = trace s ++ calls_since s s').
  { intros s' l E. now rewrite (calls_since_app _ _ l E). }
  destruct (permission_granted h (_keeWebUrl s)) eqn:Hp.
  2:{ rewrite (connect_denied h s Hp). cbn [snd]. eapply Hgen. reflexivity. }
  destruct (found_tab h (_keeWebUrl s)) as [t|] eqn:Hf.
  2:{ rewrite (connect_no_tab h s Hp Hf). cbn [snd]. eapply Hgen. reflexivity. }
  destruct (connect_handshake h s t Hp Hf)
    as (r & s2 & l & _ & (Htr & _) & Hc).
  rewrite Hc. cbn [snd]. eapply Hgen. cbn. rewrite Htr. cbn.
  rewrite <- !app_assoc. reflexivity.
Qed.

(** The outcome of a [connect] called without a port: one error and no
    port, or no event and a port. *)
Lemma connect_outcome h s :
  _port s = None ->
  (exists e,
     events_emitted (calls_since s (snd (connect h s))) = [Err e] /\
     _port (snd (connect h s)) = None) \/
  (exists p,
     events_emitted (calls_since s (snd (connect h s))) = [] /\
     _port (snd (connect h s)) = Some p /\
     _tab (snd (connect h s)) <> None).
Proof.
  intros Hport.
  destruct (permission_granted h (_keeWebUrl s)) eqn:Hp.
  2:{ left. rewrite (connect_denied h s Hp). cbn [snd].
      rewrite calls_since_with_calls. eexists. split; [reflexivity|exact Hport]. }
  destruct (found_tab h (_keeWebUrl s)) as [t|] eqn:Hf.
  2:{ left. rewrite (connect_no_tab h s Hp Hf). cbn [snd].
      rewrite calls_since_assign_tab, stamp_app, events_emitted_app.
      rewrite (proj1 (proj2 (acquisition_quiet h _ _))).
      eexists. split; [reflexivity|exact Hport]. }
  destruct (connect_acquired_log h s t Hp Hf)
    as (r & s' & l & t2 & Hc & Ht & Hr & Hcalls & _ & He & _).
  rewrite Hc. cbn [snd]. rewrite Hcalls, !events_emitted_app, He, closing_events.
  rewrite (proj1 (proj2 (acquisition_quiet h _ _))). cbn [app].
  destruct r as [p|].
  - right. exists p. repeat split; try assumption. congruence.
  - left. eexists. split; [reflexivity|assumption].
Qed.

Lemma disconnect_extends s :
  trace (snd (disconnect s)) =
  trace s ++
  match _port s with
  | Some p => [ (now s, PortDisconnect p);
                (now s, Emit (Err (I18n "errorKeeWebDisconnected" None))) ]
  | None => []
  end.
Proof.
  rewrite disconnect_run. cbn [snd].
  destruct (_port s) as [p|]; cbn; [reflexivity|now rewrite app_nil_r].
Qed.

(** X14: a [connect] on a transport without a port, followed by a
    [disconnect], reports exactly one error to the owner, whether the
    connection had been established or not, and leaves neither tab nor
    port tracked. *)
Theorem connect_then_disconnect_reports_once h s :
  _port s = None ->
  let s1 := snd (connect h s) in
  let s2 := snd (disconnect s1) in
  _tab s2 = None /\ _port s2 = None /\
  exists e, events_emitted (calls_since s s2) = [Err e].
Proof.
  intros Hport. cbv zeta.
  pose proof (connect_extends h s) as Htr1.
  pose proof (disconnect_extends (snd (connect h s))) as Htr2.
  assert (Hcalls : calls_since s (snd (disconnect (snd (connect h s)))) =
                   calls_since s (snd (connect h s)) ++
                   match _port (snd (connect h s)) with
                   | Some p =>
                       [ (now (snd (connect h s)), PortDisconnect p);
                         (now (snd (connect h s)),
                          Emit (Err (I18n "errorKeeWebDisconnected" None))) ]
                   | None => []
                   end).
  { apply calls_since_app. rewrite Htr2, Htr1 at 1. now rewrite <- app_assoc. }
  rewrite Hcalls, events_emitted_app.
  split; [|split].
  - rewrite disconnect_run. cbn [snd].
    now destruct (_port (snd (connect h s))).
  - rewrite disconnect_run. cbn [snd].
    destruct (_port (snd (connect h s))) eqn:E; cbn; [reflexivity|exact E].
  - destruct (connect_outcome h s Hport) as [(e & He & Hp)|(p & He & Hp & _)];
      rewrite He, Hp; eexists; reflexivity.
Qed.

Lemma connect_then_disconnect_reports_once_witness :
  exists e,
    events_emitted
      (calls_since (new_TransportBrowserTab keeweb)
         (snd (disconnect (snd (connect echo_host (new_TransportBrowserTab keeweb))))))
    = [Err e].
Proof.
  pose proof (connect_then_disconnect_reports_once echo_host
                (new_TransportBrowserTab keeweb) eq_refl) as W.
  cbv zeta in W. destruct W as (_ & _ & W). exact W.
Defined.

(** X15: after a [disconnect], and after the disconnect listener has
    run, a [request] posts nothing: its only call is the emission of the
    error "Port not connected". *)
Theorem request_after_teardown_reports s message :
  calls_since (snd (disconnect s)) (snd (request message (snd (disconnect s)))) =
    [(now s, Emit (Err (Literal "Port not connected")))] /\
  calls_since (snd (portDisconnected s))
    (snd (request message (snd (portDisconnected s)))) =
    [(now s, Emit (Err (Literal "Port not connected")))].
Proof.
  split.
  - rewrite disconnect_run. cbn [snd].
    destruct (_port s) as [p|] eqn:Hp.
    + apply calls_since_app. reflexivity.
    + apply calls_since_app. unfold request, bind, get. cbn. rewrite Hp.
      reflexivity.
  - rewrite portDisconnected_run. cbn [snd].
    destruct (_port s) as [p|] eqn:Hp.
    + apply calls_since_app. reflexivity.
    + apply calls_since_app. unfold request, bind, get. cbn. rewrite Hp.
      reflexivity.
Qed.

(** X16: a tracked port comes with a tracked tab.  [disconnect] and the
    disconnect listener establish this, [request] and [portMessage] keep
    it, and [connect] establishes it when called without a port and
    keeps it when a tab can be acquired. *)
Theorem port_has_tab_preserved h s message :
  port_has_tab (snd (disconnect s)) /\
  port_has_tab (snd (portDisconnected s)) /\
  (port_has_tab s -> port_has_tab (snd (request message s))) /\
  (port_has_tab s -> port_has_tab (snd (portMessage message s))) /\
  (_port s = None -> port_has_tab (snd (connect h s))) /\
  (port_has_tab s -> found_tab h (_keeWebUrl s) <> None ->
   port_has_tab (snd (connect h s))).
Proof.
  unfold port_has_tab. repeat split.
  - rewrite disconnect_run. cbn [snd].
    destruct (_port s) eqn:Hp; cbn; congruence.
  - rewrite portDisconnected_run. cbn [snd].
    destruct (_port s) eqn:Hp; cbn; congruence.
  - unfold request, bind, get. destruct (_port s) eqn:Hp; cbn; rewrite ?Hp; auto.
  - intros Hinv. exact Hinv.
  - intros Hport.
    destruct (connect_outcome h s Hport) as [(e & _ & Hp)|(p & _ & _ & Ht)];
      [congruence|intros _; exact Ht].
  - intros Hinv Hfound.
    destruct (permission_granted h (_keeWebUrl s)) eqn:Hp.
    + destruct (found_tab h (_keeWebUrl s)) as [t|] eqn:Hf; [|congruence].
      destruct (connect_acquired_log h s t Hp Hf)
        as (r & s' & l & t2 & Hc & Ht & _).
      rewrite Hc. cbn [snd]. intros _. congruence.
    + rewrite (connect_denied h s Hp). cbn [snd]. exact Hinv.
Qed.

Lemma port_has_tab_preserved_witness :
  port_has_tab (snd (connect echo_host tab_acquired)).
Proof.
  pose proof (port_has_tab_preserved echo_host tab_acquired (pong "get-logins"))
    as W.
  destruct W as (_ & _ & _ & _ & W & _). apply W. reflexivity.
Defined.

(** ** The listeners of an established connection *)

Lemma receive_all_run msgs s :
  receive_all msgs s = (Fulfilled tt, with_calls (map (fun m => Emit (Msg m)) msgs) s).
Proof.
  revert s. induction msgs as [|m rest IH]; intros s.
  - cbn. unfold ret, with_calls. cbn. rewrite app_nil_r. now destruct s.
  - cbn [receive_all]. unfold bind, portMessage, emit, call.
    rewrite IH. f_equal. unfold with_calls, log_call, stamp; cbn.
    now rewrite <- app_assoc.
Qed.

(** X17: the message listener is a relay.  Messages that arrive on the
    port reach the owner as [message] events, each one unchanged, in the
    order of arrival, none lost and none repeated; no other call is made
    and no field of the transport changes. *)
Theorem messages_relayed_in_order msgs s :
  let s' := snd (receive_all msgs s) in
  fst (receive_all msgs s) = Fulfilled tt /\
  events_emitted (calls_since s s') = map Msg msgs /\
  List.length (calls_since s s') = List.length msgs /\
  _tab s' = _tab s /\ _port s' = _port s.
Proof.
  cbv zeta. rewrite receive_all_run. cbn [fst snd].
  rewrite calls_since_with_calls. repeat split.
  - unfold stamp. induction msgs as [|m rest IH]; [reflexivity|].
    cbn. now rewrite IH.
  - unfold stamp. now rewrite !length_map.
Qed.

(** X18: the end of a connection is reported once.  Whether
    [disconnect] runs before the disconnect listener or after it, the
    two together emit the error "errorKeeWebDisconnected" once if a port
    was tracked and never otherwise, and leave neither tab nor port. *)
Theorem connection_end_reported_once s :
  let once :=
    match _port s with
    | Some _ => [Err (I18n "errorKeeWebDisconnected" None)]
    | None => []
    end in
  let s1 := snd (portDisconnected (snd (disconnect s))) in
  let s2 := snd (disconnect (snd (portDisconnected s))) in
  events_emitted (calls_since s s1) = once /\
  events_emitted (calls_since s s2) = once /\
  _tab s1 = None /\ _port s1 = None /\ _tab s2 = None /\ _port s2 = None.
Proof.
  cbv zeta. rewrite !disconnect_run, !portDisconnected_run. cbn [snd].
  destruct (_port s) as [p|] eqn:Hp; cbn [_port assign_port assign_tab with_calls];
    rewrite ?Hp.
  - repeat split; now erewrite calls_since_app by reflexivity.
  - repeat split; try assumption;
      unfold calls_since; cbn; now rewrite skipn_all.
Qed.
